(** * fetch_models.py: the Perplexity model scraper, embedded and verified

    The development follows [src/fetch_models.py] function by function.

    - Python [str] is embedded as [string]; a character stands for the code
      point of the same number.  Case mappings are the ASCII ones, the
      alphabet of every pattern, table key and needle of the source.
    - Values produced by [json.loads] / [response.json()] are Python objects
      of dynamic type; they are embedded as [pyval].
    - [re] is embedded as a backtracking matcher over the pattern syntax the
      source uses; [json.loads], the HTTP client and the iteration order of
      a [set] are parameters of the model.
    - Exceptions are values of [exn]; code that can raise lives in the
      monad [M S A := S -> (exn + A) * S], in which the state written before
      a [raise] survives it, as in Python. *)

From Stdlib Require Import String Ascii List ZArith Bool Arith Lia Permutation.
Import ListNotations.
Open Scope string_scope.
Open Scope nat_scope.
Set Warnings "-register-all".

(** ** Characters and strings *)

Module Str.

Definition code (c : ascii) : nat := nat_of_ascii c.

Definition is_upper (c : ascii) : bool := (65 <=? code c) && (code c <=? 90).
Definition is_lower (c : ascii) : bool := (97 <=? code c) && (code c <=? 122).
Definition is_cased (c : ascii) : bool := is_upper c || is_lower c.

Definition lower_char (c : ascii) : ascii :=
  if is_upper c then ascii_of_nat (code c + 32) else c.
Definition upper_char (c : ascii) : ascii :=
  if is_lower c then ascii_of_nat (code c - 32) else c.

Fixpoint map_chars (f : ascii -> ascii) (s : string) : string :=
  match s with
  | EmptyString => EmptyString
  | String c s' => String (f c) (map_chars f s')
  end.

(** [s.lower()] *)
Definition lower (s : string) : string := map_chars lower_char s.

(** [s.replace(old, new)] for one-character [old] and [new]. *)
Definition replace_char (old new : ascii) (s : string) : string :=
  map_chars (fun c => if Ascii.eqb c old then new else c) s.

(** [s.title()]: a cased character is upper-cased when the character before
    it is not cased, and lower-cased otherwise. *)
Fixpoint title_from (prev_cased : bool) (s : string) : string :=
  match s with
  | EmptyString => EmptyString
  | String c s' =>
      String (if prev_cased then lower_char c else upper_char c)
             (title_from (is_cased c) s')
  end.
Definition title (s : string) : string := title_from false s.

(** [s.startswith(p)] *)
Definition startswith (s p : string) : bool := String.prefix p s.

(** [sub in s] *)
Fixpoint contains (sub s : string) : bool :=
  String.prefix sub s ||
  match s with
  | EmptyString => false
  | String _ s' => contains sub s'
  end.

(** [x in l] for a collection of strings. *)
Definition mem (x : string) (l : list string) : bool :=
  existsb (String.eqb x) l.

Fixpoint drop (n : nat) (s : string) : string :=
  match n, s with
  | S n', String _ s' => drop n' s'
  | _, _ => s
  end.

End Str.

(** ** The fragment of [re] the source uses *)

Module Re.

(** One item of a character class; a literal outside a class is the class
    of that one item. *)
Inductive citem : Type :=
| CLit (c : ascii)
| CRange (lo hi : ascii)
| CSpace                       (* \s *)
| CDigit                       (* \d *)
| CDot.                        (* .  *)

Inductive regex : Type :=
| RBegin                       (* ^ *)
| REmpty
| RSet (items : list citem)
| RCat (r1 r2 : regex)
| ROpt (r : regex)             (* r?  *)
| RStar (greedy : bool) (r : regex)   (* r* and r*? *)
| RGroup (r : regex).          (* (r), group 1 *)

Record flags : Type := { IGNORECASE : bool; DOTALL : bool }.

Definition is_space (c : ascii) : bool :=
  let n := Str.code c in
  ((9 <=? n) && (n <=? 13)) || ((28 <=? n) && (n <=? 32))
  || (n =? 133) || (n =? 160).

Definition is_digit (c : ascii) : bool :=
  (48 <=? Str.code c) && (Str.code c <=? 57).

Definition item_has (fl : flags) (it : citem) (c : ascii) : bool :=
  match it with
  | CLit l => Ascii.eqb c l
  | CRange lo hi => (Str.code lo <=? Str.code c) && (Str.code c <=? Str.code hi)
  | CSpace => is_space c
  | CDigit => is_digit c
  | CDot => DOTALL fl || negb (Ascii.eqb c "010")
  end.

(** Under IGNORECASE a character also matches through its other case. *)
Definition char_in (fl : flags) (items : list citem) (c : ascii) : bool :=
  existsb (fun it =>
             item_has fl it c
             || (IGNORECASE fl
                 && (item_has fl it (Str.lower_char c)
                     || item_has fl it (Str.upper_char c))))
          items.

Definition orelse {A} (a b : option A) : option A :=
  match a with Some _ => a | None => b end.

(** What is left of the subject after the match, and group 1. *)
Definition outcome : Type := (string * option string)%type.

Section Matcher.
Variable fl : flags.
Variable total : nat.        (* length of the whole subject *)

(** Backtracking matcher in continuation style: alternatives are tried in
    the order [re] tries them (greedy: longest first; lazy: shortest
    first), the first that lets the continuation succeed wins. *)
Fixpoint run (r : regex) (s : string) (g : option string)
         (k : string -> option string -> option outcome) {struct r}
  : option outcome :=
  match r with
  | RBegin => if String.length s =? total then k s g else None
  | REmpty => k s g
  | RSet items =>
      match s with
      | String c s' => if char_in fl items c then k s' g else None
      | EmptyString => None
      end
  | RCat r1 r2 => run r1 s g (fun s1 g1 => run r2 s1 g1 k)
  | ROpt r1 => orelse (run r1 s g k) (k s g)
  | RStar greedy r1 =>
      (fix loop (n : nat) (s : string) (g : option string) : option outcome :=
         let more :=
           match n with
           | O => None
           | S n' =>
               run r1 s g
                   (fun s1 g1 =>
                      if String.length s1 <? String.length s then loop n' s1 g1 else None)
           end in
         if greedy then orelse more (k s g) else orelse (k s g) more)
        (String.length s) s g
  | RGroup r1 =>
      run r1 s g
          (fun s1 _ => k s1 (Some (substring 0 (String.length s - String.length s1) s)))
  end.

Definition match_here (r : regex) (s : string) : option outcome :=
  run r s None (fun s1 g1 => Some (s1, g1)).

(** Leftmost match starting at or after the current position. *)
Fixpoint search_from (r : regex) (s : string) : option outcome :=
  match match_here r s with
  | Some o => Some o
  | None =>
      match s with
      | EmptyString => None
      | String _ s' => search_from r s'
      end
  end.

(** Successive non-overlapping matches, left to right.  None of the
    patterns of the source matches the empty string; after an empty match
    the scan moves on by one character. *)
Fixpoint finditer_from (fuel : nat) (r : regex) (s : string)
  : list (option string) :=
  match fuel with
  | O => []
  | S fuel' =>
      let step :=
        match s with
        | EmptyString => []
        | String _ s' => finditer_from fuel' r s'
        end in
      match match_here r s with
      | Some (rest, g) =>
          g :: (if String.length rest <? String.length s
                then finditer_from fuel' r rest else step)
      | None => step
      end
  end.
End Matcher.

(** [re.match(r, s, flags)]: is there a match at the start of [s]? *)
Definition re_match (fl : flags) (r : regex) (s : string) : bool :=
  match match_here fl (String.length s) r s with Some _ => true | None => false end.

(** [re.search(r, s, flags)], reduced to [group(1)] of the match found. *)
Definition re_search (fl : flags) (r : regex) (s : string)
  : option (option string) :=
  option_map snd (search_from fl (String.length s) r s).

(** [re.finditer(r, s, flags)], each match reduced to its [group(1)]. *)
Definition re_finditer (fl : flags) (r : regex) (s : string)
  : list (option string) :=
  finditer_from fl (String.length s) (S (String.length s)) r s.

Definition lit (c : ascii) : regex := RSet [CLit c].

(** A run of literal characters. *)
Fixpoint lits (p : string) : regex :=
  match p with
  | EmptyString => REmpty
  | String c p' => RCat (lit c) (lits p')
  end.

Fixpoint cat (rs : list regex) : regex :=
  match rs with
  | [] => REmpty
  | r :: rs' => RCat r (cat rs')
  end.

Definition plus (r : regex) : regex := RCat r (RStar true r).

End Re.

(** ** Python values, exceptions and the monads of the model *)

(** A value of [json.loads] or [response.json()].  [PyNum] stands for [int]
    and [float] alike: the code only looks at the type and the truth value
    of a number.  [PyDict] lists the items of a dict in iteration order. *)
Inductive pyval : Type :=
| PyNone
| PyBool (b : bool)
| PyNum (z : Z)
| PyStr (s : string)
| PyList (l : list pyval)
| PyDict (items : list (string * pyval)).

(** Subclasses of [Exception] the code can meet. *)
Inductive exn_class : Type :=
| JSONDecodeError
| AttributeError
| TypeError
| RequestError                 (* raised by the HTTP client *)
| RecursionError.

Record exn : Type := Exn { exn_cls : exn_class; exn_msg : string }.

Definition is_JSONDecodeError (e : exn) : bool :=
  match exn_cls e with JSONDecodeError => true | _ => false end.

Class Monad (m : Type -> Type) : Type :=
  { ret : forall {A}, A -> m A;
    bind : forall {A B}, m A -> (A -> m B) -> m B }.

Class MonadExn (m : Type -> Type) : Type :=
  { raise : forall {A}, exn -> m A;
    catch : forall {A}, m A -> (exn -> m A) -> m A }.

Declare Scope monad_scope.
Delimit Scope monad_scope with monad.
Notation "x <- c1 ;; c2" := (bind c1 (fun x => c2))
  (at level 61, c1 at next level, right associativity) : monad_scope.
Notation "c1 ;; c2" := (bind c1 (fun _ => c2))
  (at level 61, right associativity) : monad_scope.
Open Scope monad_scope.

(** Code without state: a value or the exception raised. *)
Definition result (A : Type) : Type := (exn + A)%type.

#[export] Instance Monad_result : Monad result :=
  {| ret := fun A a => inr a;
     bind := fun A B c f => match c with inl e => inl e | inr a => f a end |}.

#[export] Instance MonadExn_result : MonadExn result :=
  {| raise := fun A e => inl e;
     catch := fun A c h => match c with inl e => h e | inr a => inr a end |}.

(** Code over a mutable state [S]; the state reached when an exception is
    raised is kept. *)
Definition M (S A : Type) : Type := S -> result A * S.

#[export] Instance Monad_M {S} : Monad (M S) :=
  {| ret := fun A a s => (inr a, s);
     bind := fun A B c f s =>
               match c s with
               | (inl e, s') => (inl e, s')
               | (inr a, s') => f a s'
               end |}.

#[export] Instance MonadExn_M {S} : MonadExn (M S) :=
  {| raise := fun A e s => (inl e, s);
     catch := fun A c h s =>
                match c s with
                | (inl e, s') => h e s'
                | (inr a, s') => (inr a, s')
                end |}.

Definition lift {S A} (c : result A) : M S A := fun s => (c, s).
Definition get_state {S} : M S S := fun s => (inr s, s).
Definition modify {S} (f : S -> S) : M S unit := fun s => (inr tt, f s).

(** A block of code working on a local variable of type [L]: the final value
    of the variable, or the exception that leaves the block. *)
Definition run_local {L A} (c : M L A) (init : L) : result L :=
  match c init with
  | (inl e, _) => inl e
  | (inr _, l) => inr l
  end.

(** [for x in l: body(x)] *)
Definition for_each {m} `{Monad m} {A} (l : list A) (body : A -> m unit)
  : m unit :=
  (fix loop (l : list A) : m unit :=
     match l with
     | [] => ret tt
     | x :: l' => body x ;; loop l'
     end) l.

Module Py.

(** Truth value of an object. *)
Definition truthy (v : pyval) : bool :=
  match v with
  | PyNone => false
  | PyBool b => b
  | PyNum z => negb (Z.eqb z 0)
  | PyStr s => negb (String.eqb s "")
  | PyList l => match l with [] => false | _ => true end
  | PyDict d => match d with [] => false | _ => true end
  end.

(** [a or b] *)
Definition or_ (a b : pyval) : pyval := if truthy a then a else b.

(** [len(v)] *)
Definition len (v : pyval) : result nat :=
  match v with
  | PyStr s => inr (String.length s)
  | PyList l => inr (List.length l)
  | PyDict d => inr (List.length d)
  | _ => inl (Exn TypeError "object has no len()")
  end.

Fixpoint lookup (key : string) (d : list (string * pyval)) : option pyval :=
  match d with
  | [] => None
  | (k, v) :: d' => if String.eqb key k then Some v else lookup key d'
  end.

(** [key in d] *)
Definition has_key (key : string) (d : list (string * pyval)) : bool :=
  match lookup key d with Some _ => true | None => false end.

(** [d.get(key, default)] *)
Definition get (d : list (string * pyval)) (key : string) (default : pyval)
  : pyval :=
  match lookup key d with Some v => v | None => default end.

(** [re.match(r, v, re.IGNORECASE)] as a truth value; [re] refuses a
    subject that is not a string. *)
Definition re_match_i (r : Re.regex) (v : pyval) : result bool :=
  match v with
  | PyStr s => inr (Re.re_match {| Re.IGNORECASE := true; Re.DOTALL := false |} r s)
  | _ => inl (Exn TypeError "expected string or bytes-like object")
  end.

End Py.

(** ** The data model *)

Record ModelInfo : Type :=
  { identifier : string;
    name : pyval;
    description : pyval;
    mode : pyval;
    provider : pyval;
    is_pro : pyval;
    supports_reasoning : bool }.

(** The defaults of the dataclass for the two flags. *)
Definition default_is_pro : pyval := PyBool false.
Definition default_supports_reasoning : bool := false.

(** ** The HTTP client *)

Record Response : Type :=
  { status_code : Z;
    text : string;
    raise_for_status : option exn;   (* [None]: returns normally *)
    json : result pyval }.           (* [response.json()] *)

Record Session : Type :=
  { get : string -> result Response }.

Definition API_BASE_URL : string := "https://www.perplexity.ai".

(** The fetcher object together with the error stream of the process. *)
Record State : Type :=
  { session_token : string;
    _session : option Session;
    _models : list ModelInfo;
    stderr : list string }.

Definition set_session (x : Session) (st : State) : State :=
  {| session_token := session_token st; _session := Some x;
     _models := _models st; stderr := stderr st |}.
Definition set_models (ms : list ModelInfo) (st : State) : State :=
  {| session_token := session_token st; _session := _session st;
     _models := ms; stderr := stderr st |}.
Definition print_stderr (line : string) (st : State) : State :=
  {| session_token := session_token st; _session := _session st;
     _models := _models st; stderr := (stderr st ++ [line])%list |}.

(** The iteration order of a Python [set] of strings built by adding the
    given elements one after the other: some enumeration of its distinct
    elements. *)
Record SetOrder : Type :=
  { set_iter : list string -> list string;
    set_iter_perm :
      forall l, Permutation (set_iter l) (nodup string_dec l) }.

Definition insertion_order : SetOrder :=
  {| set_iter := nodup string_dec;
     set_iter_perm := fun l => Permutation_refl _ |}.

(** ** [PerplexityModelsFetcher] *)

Definition ignorecase : Re.flags := {| Re.IGNORECASE := true; Re.DOTALL := false |}.
Definition dotall : Re.flags := {| Re.IGNORECASE := false; Re.DOTALL := true |}.

(** [r"^p"] for a literal [p]. *)
Definition anchored (p : string) : Re.regex := Re.RCat Re.RBegin (Re.lits p).

Definition valid_patterns : list Re.regex :=
  [ anchored "pplx_";
    Re.RCat (anchored "gpt") (Re.RSet [Re.CDigit]);
    anchored "claude";
    anchored "gemini";
    anchored "grok";
    anchored "sonar";
    anchored "experimental";
    anchored "kimi";
    anchored "llama";
    anchored "mistral";
    anchored "deepseek" ].

Definition exclude_patterns : list Re.regex :=
  [ anchored "api_";
    anchored "user_";
    anchored "session";
    anchored "token";
    anchored "auth";
    anchored "config" ].

(** [for pattern in patterns: if re.match(pattern, model_id, re.IGNORECASE): ...]
    up to the first pattern that matches. *)
Fixpoint any_match (patterns : list Re.regex) (model_id : pyval) : result bool :=
  match patterns with
  | [] => ret false
  | pattern :: rest =>
      hit <- Py.re_match_i pattern model_id ;;
      if hit then ret true else any_match rest model_id
  end.

Definition _is_valid_model_id (model_id : pyval) : result bool :=
  if negb (Py.truthy model_id) then ret false else
  n <- Py.len model_id ;;
  if n <? 3 then ret false else
  excluded <- any_match exclude_patterns model_id ;;
  if excluded then ret false else
  any_match valid_patterns model_id.

Definition name_mappings : list (string * string) :=
  [ ("pplx_beta", "Perplexity Labs");
    ("pplx_alpha", "Perplexity Research");
    ("pplx_pro", "Perplexity Pro (Auto)");
    ("experimental", "Sonar");
    ("gpt51", "GPT-5.1");
    ("gpt52", "GPT-5.2");
    ("gpt51_thinking", "GPT-5.1 Thinking");
    ("claude45sonnet", "Claude 4.5 Sonnet");
    ("claude45sonnetthinking", "Claude 4.5 Sonnet Thinking");
    ("claudeopus45", "Claude Opus 4.5");
    ("gemini30pro", "Gemini 3.0 Pro Thinking");
    ("grok41nonreasoning", "Grok 4.1");
    ("kimik2thinking", "Kimi K2 Thinking") ].

Fixpoint table_get (t : list (string * string)) (key : string) : option string :=
  match t with
  | [] => None
  | (k, v) :: t' => if String.eqb key k then Some v else table_get t' key
  end.

Definition _infer_model_name (model_id : string) : string :=
  match table_get name_mappings model_id with
  | Some n => n
  | None => Str.title (Str.replace_char "_" " " model_id)
  end.

Definition _infer_provider (model_id : string) : string :=
  let model_id_lower := Str.lower model_id in
  if Str.startswith model_id_lower "pplx" || String.eqb model_id_lower "experimental"
  then "Perplexity"
  else if Str.startswith model_id_lower "gpt" then "OpenAI"
  else if Str.startswith model_id_lower "claude" then "Anthropic"
  else if Str.startswith model_id_lower "gemini" then "Google"
  else if Str.startswith model_id_lower "grok" then "xAI"
  else if Str.startswith model_id_lower "kimi" then "Moonshot AI"
  else if Str.startswith model_id_lower "llama" then "Meta"
  else if Str.startswith model_id_lower "mistral" then "Mistral AI"
  else if Str.startswith model_id_lower "deepseek" then "DeepSeek"
  else "Unknown".

(** ["thinking" in model_id.lower() or "reasoning" in model_id.lower()] *)
Definition mentions_reasoning (model_id : string) : bool :=
  Str.contains "thinking" (Str.lower model_id)
  || Str.contains "reasoning" (Str.lower model_id).

Definition _create_model_info (model_id : string) : ModelInfo :=
  let name := _infer_model_name model_id in
  let provider := _infer_provider model_id in
  {| identifier := model_id;
     name := PyStr name;
     description := PyStr (provider ++ " model");
     mode := PyStr "copilot";
     provider := PyStr provider;
     is_pro := PyBool (Str.contains "pro" (Str.lower model_id)
                       || Str.contains "alpha" (Str.lower model_id));
     supports_reasoning := mentions_reasoning model_id |}.

(** [models.append(m)] *)
Definition append (m : ModelInfo) : M (list ModelInfo) unit :=
  modify (fun models => (models ++ [m])%list).

(** The test made on a dict-valued field in [search_dict]. *)
Definition model_definition (value : list (string * pyval)) : M (list ModelInfo) unit :=
  if Py.has_key "identifier" value || Py.has_key "modelId" value then
    let model_id :=
      Py.or_ (Py.get value "identifier" PyNone) (Py.get value "modelId" PyNone) in
    if Py.truthy model_id then
      ok <- lift (_is_valid_model_id model_id) ;;
      if (ok : bool) then
        match model_id with
        | PyStr s =>
            append {| identifier := s;
                      name := Py.get value "name" model_id;
                      description := Py.get value "description" (PyStr "");
                      mode := Py.get value "mode" (PyStr "copilot");
                      provider := Py.get value "provider" (PyStr "unknown");
                      is_pro := Py.get value "isPro" (PyBool false);
                      supports_reasoning := mentions_reasoning s |}
        | _ => raise (Exn AttributeError "object has no attribute 'lower'")
        end
      else ret tt
    else ret tt
  else ret tt.

(** [search_dict(d, depth)], appending to the list [models] of the enclosing
    [_parse_next_data]. *)
Fixpoint search_dict (d : pyval) (depth : Z) {struct d} : M (list ModelInfo) unit :=
  if (depth >? 10)%Z then ret tt else
  match d with
  | PyDict items =>
      for_each items
        (fun '(key, value) =>
           match value with
           | PyDict fields =>
               model_definition fields ;;
               search_dict value (depth + 1)%Z
           | PyList l =>
               for_each l
                 (fun item =>
                    match item with
                    | PyDict _ => search_dict item (depth + 1)%Z
                    | _ => ret tt
                    end)
           | _ => ret tt
           end)
  | _ => raise (Exn AttributeError "object has no attribute 'items'")
  end.

Definition _parse_next_data (data : pyval) : result (list ModelInfo) :=
  run_local (search_dict data 0%Z) [].

Definition dq : ascii := "034"%char.
Definition sq : ascii := "'"%char.

(** [<script id="__NEXT_DATA__" type="application/json">(.*?)</script>] *)
Definition next_data_pattern : Re.regex :=
  Re.cat [ Re.lits "<script id="; Re.lit dq; Re.lits "__NEXT_DATA__"; Re.lit dq;
           Re.lits " type="; Re.lit dq; Re.lits "application/json"; Re.lit dq;
           Re.lits ">";
           Re.RGroup (Re.RStar false (Re.RSet [Re.CDot]));
           Re.lits "</script>" ].

Definition spaces : Re.regex := Re.RStar true (Re.RSet [Re.CSpace]).

(** [([a-z0-9_]+)] *)
Definition id_group : Re.regex :=
  Re.RGroup (Re.plus (Re.RSet [Re.CRange "a" "z"; Re.CRange "0" "9"; Re.CLit "_"])).

Definition quote : Re.regex := Re.RSet [Re.CLit dq; Re.CLit sq].

Definition model_patterns : list Re.regex :=
  [ (* "identifier"\s*:\s*"([a-z0-9_]+)" *)
    Re.cat [ Re.lit dq; Re.lits "identifier"; Re.lit dq; spaces; Re.lit ":";
             spaces; Re.lit dq; id_group; Re.lit dq ];
    (* "model"\s*:\s*"([a-z0-9_]+)" *)
    Re.cat [ Re.lit dq; Re.lits "model"; Re.lit dq; spaces; Re.lit ":";
             spaces; Re.lit dq; id_group; Re.lit dq ];
    (* modelId[Q]?\s*[:=]\s*[Q]([a-z0-9_]+)[Q], Q either quote character *)
    Re.cat [ Re.lits "modelId"; Re.ROpt quote; spaces;
             Re.RSet [Re.CLit ":"; Re.CLit "="]; spaces; quote; id_group; quote ] ].

(** [match.group(1)] as a Python object. *)
Definition group1 (g : option string) : pyval :=
  match g with Some s => PyStr s | None => PyNone end.

(** One turn of the inner loop of the pattern scan; [found] is the list of
    the identifiers added to [found_ids] so far. *)
Definition scan_match (found : list string) (g : option string)
  : result (list string) :=
  ok <- _is_valid_model_id (group1 g) ;;
  ret (match ok, g with
       | true, Some model_id => (found ++ [model_id])%list
       | _, _ => found
       end).

Fixpoint scan_matches (ms : list (option string)) (found : list string)
  : result (list string) :=
  match ms with
  | [] => ret found
  | g :: ms' => found' <- scan_match found g ;; scan_matches ms' found'
  end.

Fixpoint scan_patterns (ps : list Re.regex) (html : string) (found : list string)
  : result (list string) :=
  match ps with
  | [] => ret found
  | pattern :: ps' =>
      found' <- scan_matches (Re.re_finditer ignorecase pattern html) found ;;
      scan_patterns ps' html found'
  end.

Definition _get_default_models : list ModelInfo :=
  let mk id nm descr md prov pro reasoning :=
    {| identifier := id; name := PyStr nm; description := PyStr descr;
       mode := PyStr md; provider := PyStr prov; is_pro := PyBool pro;
       supports_reasoning := reasoning |} in
  [ mk "pplx_pro" "Perplexity Pro (Auto)" "Auto-selects the best model"
       "copilot" "Perplexity" true false;
    mk "pplx_alpha" "Perplexity Research" "Deep research mode"
       "copilot" "Perplexity" true false;
    mk "pplx_beta" "Perplexity Labs" "Experimental features"
       "copilot" "Perplexity" true false;
    mk "experimental" "Sonar" "Fast model for quick queries"
       "copilot" "Perplexity" false false;
    mk "gpt51" "GPT-5.1" "OpenAI's GPT-5.1" "copilot" "OpenAI" true false;
    mk "gpt52" "GPT-5.2" "OpenAI's GPT-5.2" "copilot" "OpenAI" true false;
    mk "gpt51_thinking" "GPT-5.1 Thinking" "GPT-5.1 with reasoning"
       "copilot" "OpenAI" true true;
    mk "claude45sonnet" "Claude 4.5 Sonnet" "Anthropic's Claude 4.5 Sonnet"
       "copilot" "Anthropic" true false;
    mk "claude45sonnetthinking" "Claude 4.5 Sonnet Thinking"
       "Claude 4.5 with reasoning" "copilot" "Anthropic" true true;
    mk "claudeopus45" "Claude Opus 4.5" "Anthropic's Claude Opus 4.5"
       "copilot" "Anthropic" true false;
    mk "gemini30pro" "Gemini 3.0 Pro Thinking" "Google's Gemini with reasoning"
       "copilot" "Google" true true;
    mk "grok41nonreasoning" "Grok 4.1" "xAI's Grok 4.1"
       "copilot" "xAI" true false;
    mk "kimik2thinking" "Kimi K2 Thinking" "Moonshot AI's Kimi K2"
       "copilot" "Moonshot AI" true true ].

Definition is_empty {A} (l : list A) : bool :=
  match l with [] => true | _ => false end.

Definition settings_keys : list string :=
  ["models"; "availableModels"; "supportedModels"].

Definition endpoints : list string :=
  ["/api/auth/session"; "/api/user/settings"].

(** The body of the loop over a list found under one of the keys. *)
Definition settings_item (m : pyval) : M (list ModelInfo) unit :=
  match m with
  | PyStr s => append (_create_model_info s)
  | PyDict d =>
      match Py.lookup "identifier" d with
      | Some (PyStr s) =>
          append {| identifier := s;
                    name := Py.get d "name" (PyStr s);
                    description := Py.get d "description" (PyStr "");
                    mode := Py.get d "mode" (PyStr "copilot");
                    provider := PyStr (_infer_provider s);
                    is_pro := default_is_pro;
                    supports_reasoning := default_supports_reasoning |}
      | Some _ =>
          (* [_infer_provider] calls [.lower()] on the identifier *)
          raise (Exn AttributeError "object has no attribute 'lower'")
      | None => ret tt
      end
  | _ => ret tt
  end.

(** The body of the loop over the keys, for a response that is a dict. *)
Definition settings_key (data : list (string * pyval)) (key : string)
  : M (list ModelInfo) unit :=
  match Py.lookup key data with
  | Some (PyList model_list) => for_each model_list settings_item
  | _ => ret tt
  end.

(** The body of the loop over the endpoints: [try: ... except Exception:
    continue]. *)
Definition settings_endpoint (session : Session) (endpoint : string)
  : M (list ModelInfo) unit :=
  catch (response <- lift (get session (API_BASE_URL ++ endpoint)) ;;
         if (status_code response =? 200)%Z then
           data <- lift (json response) ;;
           match data with
           | PyDict d => for_each settings_keys (settings_key d)
           | _ => ret tt
           end
         else ret tt)
        (fun _ => ret tt).

(** [_fetch_from_settings] once it has its session. *)
Definition settings_loop (session : Session) : result (list ModelInfo) :=
  run_local (for_each endpoints (settings_endpoint session)) [].

(** The list [models] as the loop over the endpoints leaves it. *)
Definition settings_models (session : Session) : list ModelInfo :=
  snd (for_each endpoints (settings_endpoint session) []).

Section Fetcher.

(** [json.loads] *)
Variable json_loads : string -> result pyval.

(** How this run of the interpreter enumerates a set of strings. *)
Variable order : SetOrder.

(** [Session(headers=..., cookies={SESSION_COOKIE_NAME: token}, timeout=30,
    impersonate=...)]: the client for a token.  Building it sends nothing. *)
Variable new_session : string -> Session.

Definition _get_session : M State Session :=
  fun st =>
    match _session st with
    | Some x => (inr x, st)
    | None =>
        let x := new_session (session_token st) in
        (inr x, set_session x st)
    end.

(** The first part of [_extract_models_from_html]: the models of the
    embedded [__NEXT_DATA__] script, if there is one and it parses. *)
Definition next_data_models (html : string) : result (list ModelInfo) :=
  match Re.re_search dotall next_data_pattern html with
  | Some g =>
      catch (data <- match g with
                     | Some txt => json_loads txt
                     | None => raise (Exn TypeError "the JSON object must be str")
                     end ;;
             _parse_next_data data)
            (fun e => if is_JSONDecodeError e then ret [] else raise e)
  | None => ret []
  end.

Definition _extract_models_from_html (html : string) : result (list ModelInfo) :=
  models <- next_data_models html ;;
  found_ids <- scan_patterns model_patterns html [] ;;
  let existing_ids := map identifier models in
  ret (models ++
       map _create_model_info
           (filter (fun model_id => negb (Str.mem model_id existing_ids))
                   (set_iter order found_ids)))%list.

Definition _fetch_from_settings : M State (list ModelInfo) :=
  session <- _get_session ;;
  lift (settings_loop session).

(** The [try] block of [fetch_models]. *)
Definition fetch_body (session : Session) : M State (list ModelInfo) :=
  response <- lift (get session API_BASE_URL) ;;
  lift (match raise_for_status response with
        | Some e => raise e
        | None => ret tt
        end) ;;
  models <- lift (_extract_models_from_html (text response)) ;;
  models <- (if is_empty models then _fetch_from_settings else ret models) ;;
  let models := if is_empty models then _get_default_models else models in
  modify (set_models models) ;;
  ret models.

Definition error_line (e : exn) : string :=
  "Error fetching models: " ++ exn_msg e.

Definition fetch_models : M State (list ModelInfo) :=
  session <- _get_session ;;
  catch (fetch_body session)
        (fun e =>
           modify (print_stderr (error_line e)) ;;
           modify (set_models _get_default_models) ;;
           st <- get_state ;;
           ret (_models st)).

(** The session [_get_session] returns in a state, and the state it leaves. *)
Definition the_session (st : State) : Session :=
  match _session st with
  | Some x => x
  | None => new_session (session_token st)
  end.
Definition session_opened (st : State) : State :=
  match _session st with
  | Some _ => st
  | None => set_session (new_session (session_token st)) st
  end.

(** [e] is raised inside the [try] block of [fetch_models]: by the request,
    by [raise_for_status], or by the extraction from the page. *)
Definition raised_in_try (session : Session) (e : exn) : Prop :=
  get session API_BASE_URL = inl e
  \/ exists response,
      get session API_BASE_URL = inr response
      /\ (raise_for_status response = Some e
          \/ (raise_for_status response = None
              /\ _extract_models_from_html (text response) = inl e)).

(** What the models found on the page and in the settings become. *)
Definition chosen (page settings : list ModelInfo) : list ModelInfo :=
  let models := if is_empty page then settings else page in
  if is_empty models then _get_default_models else models.

(** The state in which the handler of [fetch_models] leaves the fetcher. *)
Definition after_error (e : exn) (st : State) : State :=
  set_models _get_default_models (print_stderr (error_line e) st).

End Fetcher.

(** ** The specification's vocabulary

    The definitions of this part follow the words of the specification, to
    be compared with the functions above. *)

Module Spec.

(** [s] starts with [p], letter case ignored. *)
Definition starts_ci (s p : string) : bool :=
  String.prefix (Str.lower p) (Str.lower s).

Definition deny_list : list string :=
  ["api_"; "user_"; "session"; "token"; "auth"; "config"].

(** The allow-list, but for [gpt\d]. *)
Definition allow_list : list string :=
  ["pplx_"; "claude"; "gemini"; "grok"; "sonar"; "experimental"; "kimi";
   "llama"; "mistral"; "deepseek"].

(** [gpt] followed by a digit. *)
Definition gpt_digit (s : string) : bool :=
  starts_ci s "gpt"
  && match String.get 3 s with Some c => Re.is_digit c | None => false end.

(** [sub] occurs in [s]. *)
Definition occurs_in (sub s : string) : Prop :=
  exists before after, s = before ++ sub ++ after.

(** The provider rules, in priority order: a test on the lower-cased
    identifier and the provider it selects. *)
Definition provider_rules : list ((string -> bool) * string) :=
  [ (fun l => String.prefix "pplx" l, "Perplexity");
    (fun l => String.eqb l "experimental", "Perplexity");
    (fun l => String.prefix "gpt" l, "OpenAI");
    (fun l => String.prefix "claude" l, "Anthropic");
    (fun l => String.prefix "gemini" l, "Google");
    (fun l => String.prefix "grok" l, "xAI");
    (fun l => String.prefix "kimi" l, "Moonshot AI");
    (fun l => String.prefix "llama" l, "Meta");
    (fun l => String.prefix "mistral" l, "Mistral AI");
    (fun l => String.prefix "deepseek" l, "DeepSeek") ].

(** The provider of the first rule that applies, ["Unknown"] if none does. *)
Fixpoint first_rule (rules : list ((string -> bool) * string)) (l : string)
  : string :=
  match rules with
  | [] => "Unknown"
  | (test, prov) :: rules' => if test l then prov else first_rule rules' l
  end.

(** A mapping taken as a model record: its identifier, its name,
    description and mode with the defaults for those it lacks, the provider
    of the identifier, and the flags at their defaults. *)
Definition record_with_defaults (fields : list (string * pyval)) (id : string)
  : ModelInfo :=
  {| identifier := id;
     name := match Py.lookup "name" fields with Some v => v | None => PyStr id end;
     description :=
       match Py.lookup "description" fields with Some v => v | None => PyStr "" end;
     mode :=
       match Py.lookup "mode" fields with Some v => v | None => PyStr "copilot" end;
     provider := PyStr (_infer_provider id);
     is_pro := PyBool false;
     supports_reasoning := false |}.

(** What one element of a model list stands for: a plain string is a bare
    identifier, classified by inference; a mapping with an identifier field
    is a model record; anything else is nothing. *)
Definition listed_models (m : pyval) : list ModelInfo :=
  match m with
  | PyStr s => [_create_model_info s]
  | PyDict fields =>
      match Py.lookup "identifier" fields with
      | Some (PyStr id) => [record_with_defaults fields id]
      | _ => []
      end
  | _ => []
  end.


(** The identifier field of a mapping, if it has one, is a string. *)
Definition string_identifier (m : pyval) : Prop :=
  match m with
  | PyDict fields =>
      match Py.lookup "identifier" fields with
      | Some (PyStr _) | None => True
      | Some _ => False
      end
  | _ => True
  end.

End Spec.

(** ** Properties of a [ModelInfo] *)

(** The identifier has passed [_is_valid_model_id]. *)
Definition validated (m : ModelInfo) : Prop :=
  _is_valid_model_id (PyStr (identifier m)) = inr true.

(** The name is a non-empty string. *)
Definition named (m : ModelInfo) : Prop :=
  exists s, name m = PyStr s /\ s <> "".

(** Strings that all pass the validation. *)
Definition all_valid (found : list string) : Prop :=
  Forall (fun i => _is_valid_model_id (PyStr i) = inr true) found.

(** No two entries have the same identifier. *)
Definition deduplicated (l : list ModelInfo) : Prop :=
  NoDup (map identifier l).

(** The entries of a list with a given identifier. *)
Definition with_identifier (i : string) (l : list ModelInfo) : list ModelInfo :=
  filter (fun m => String.eqb (identifier m) i) l.

(** ** Sample data *)

(** A model definition as the embedded data would carry it. *)
Definition gpt51_fields : list (string * pyval) :=
  [("identifier", PyStr "gpt51"); ("name", PyStr "GPT-5.1")].

Definition gpt51_model : ModelInfo :=
  {| identifier := "gpt51";
     name := PyStr "GPT-5.1";
     description := PyStr "";
     mode := PyStr "copilot";
     provider := PyStr "unknown";
     is_pro := PyBool false;
     supports_reasoning := false |}.

(** A chain of nested mappings: the mapping at nesting depth [depth] with
    [below] further levels under its key [child]; the mapping at depth
    [model_depth] also has the fields of [gpt51_fields].  The root of a
    parsed document has depth 0, as in [search_dict(data)]. *)
Fixpoint nested (below depth model_depth : nat) : pyval :=
  PyDict ((if depth =? model_depth then gpt51_fields else [])
          ++ match below with
             | O => []
             | S b => [("child", nested b (S depth) model_depth)]
             end)%list.

(** Fifteen levels under the root. *)
Definition nested15 (model_depth : nat) : pyval := nested 15 0 model_depth.

(** The embedded data of a page that lists its models in a sequence, and
    the same definition as the value of a field. *)
Definition models_in_list : pyval :=
  PyDict [("models", PyList [PyDict gpt51_fields])].
Definition model_in_field : pyval :=
  PyDict [("model", PyDict gpt51_fields)].

(** A fetcher just constructed. *)
Definition fresh (token : string) : State :=
  {| session_token := token; _session := None; _models := []; stderr := [] |}.

(** A site whose root page mentions no model and whose other paths do not
    answer. *)
Definition blank_page : Response :=
  {| status_code := 200;
     text := "<html><body>Sign in</body></html>";
     raise_for_status := None;
     json := inl (Exn JSONDecodeError "Expecting value") |}.

Definition blank_site : Session :=
  {| get := fun url =>
              if String.eqb url API_BASE_URL then inr blank_page
              else inl (Exn RequestError "Failed to connect") |}.

(** A [json.loads] that is never given valid JSON. *)
Definition no_json (txt : string) : result pyval :=
  inl (Exn JSONDecodeError "Expecting value").

(** The identifiers of the static catalog, in its order. *)
Definition default_identifiers : list string :=
  [ "pplx_pro"; "pplx_alpha"; "pplx_beta"; "experimental"; "gpt51"; "gpt52";
    "gpt51_thinking"; "claude45sonnet"; "claude45sonnetthinking";
    "claudeopus45"; "gemini30pro"; "grok41nonreasoning"; "kimik2thinking" ].

(** [s] between double quotes. *)
Definition quoted (s : string) : string := String dq (s ++ String dq "").

(** A page around an embedded [__NEXT_DATA__] script. *)
Definition page_with (next_data rest : string) : string :=
  "<html><script id=" ++ quoted "__NEXT_DATA__" ++ " type="
  ++ quoted "application/json" ++ ">" ++ next_data ++ "</script>"
  ++ rest ++ "</html>".

(** A [json.loads] that knows one document. *)
Definition loads_only (txt : string) (value : pyval) (s : string) : result pyval :=
  if String.eqb s txt then inr value
  else inl (Exn JSONDecodeError "Expecting value").

(** A site that serves [html] at its root and nothing else. *)
Definition page_response (html : string) : Response :=
  {| status_code := 200;
     text := html;
     raise_for_status := None;
     json := inl (Exn JSONDecodeError "Expecting value") |}.
Definition site_serving (html : string) : Session :=
  {| get := fun url =>
              if String.eqb url API_BASE_URL then inr (page_response html)
              else inl (Exn RequestError "Failed to connect") |}.

(** The embedded data [{"model": {"identifier": "gpt51", "name": "GPT-5.1"}}],
    on a page whose script also names [claude45sonnet]. *)
Definition one_model_text : string :=
  "{" ++ quoted "model" ++ ":{" ++ quoted "identifier" ++ ":" ++ quoted "gpt51"
  ++ "," ++ quoted "name" ++ ":" ++ quoted "GPT-5.1" ++ "}}".
Definition one_model_page : string :=
  page_with one_model_text "<script>var modelId = 'claude45sonnet';</script>".
Definition one_model_loads : string -> result pyval :=
  loads_only one_model_text model_in_field.

(** The embedded data [{"defaultModel": {"identifier": "gpt51"},
    "selectedModel": {"identifier": "gpt51"}}]: one model, referred to
    twice. *)
Definition same_model_twice : pyval :=
  PyDict [("defaultModel", PyDict [("identifier", PyStr "gpt51")]);
          ("selectedModel", PyDict [("identifier", PyStr "gpt51")])].
Definition same_model_twice_text : string :=
  "{" ++ quoted "defaultModel" ++ ":{" ++ quoted "identifier" ++ ":"
  ++ quoted "gpt51" ++ "}," ++ quoted "selectedModel" ++ ":{"
  ++ quoted "identifier" ++ ":" ++ quoted "gpt51" ++ "}}".
Definition same_model_twice_page : string :=
  page_with same_model_twice_text "".
Definition same_model_twice_loads : string -> result pyval :=
  loads_only same_model_twice_text same_model_twice.

(** The model synthesized from a node that only has the identifier [gpt51]. *)
Definition bare_gpt51_model : ModelInfo :=
  {| identifier := "gpt51";
     name := PyStr "gpt51";
     description := PyStr "";
     mode := PyStr "copilot";
     provider := PyStr "unknown";
     is_pro := PyBool false;
     supports_reasoning := false |}.

(** A site that does not answer. *)
Definition offline_site : Session :=
  {| get := fun url => inl (Exn RequestError "Failed to connect") |}.

(** A site whose root page mentions no model and whose session endpoint
    answers with [data]; the body text of that answer is not read. *)
Definition json_response (data : pyval) : Response :=
  {| status_code := 200;
     text := "";
     raise_for_status := None;
     json := inr data |}.
Definition site_with_session_data (data : pyval) : Session :=
  {| get := fun url =>
              if String.eqb url API_BASE_URL then inr blank_page
              else if String.eqb url (API_BASE_URL ++ "/api/auth/session")
                   then inr (json_response data)
                   else inl (Exn RequestError "Failed to connect") |}.

(** The answer [{"models": ["o1", {"identifier": "o3", "name": E}]}] with
    [E] the empty string. *)
Definition short_models : pyval :=
  PyDict [("models",
           PyList [PyStr "o1";
                   PyDict [("identifier", PyStr "o3"); ("name", PyStr "")]])].



(** The answer [{"models": ["gpt51"]}]. *)
Definition one_listed_model : pyval :=
  PyDict [("models", PyList [PyStr "gpt51"])].

(** ** The rest of the module *)

(** [close()]: the sessions whose [close()] is called, and the fetcher
    left. *)
Definition close (st : State) : list Session * State :=
  match _session st with
  | Some x =>
      ([x], {| session_token := session_token st; _session := None;
               _models := _models st; stderr := stderr st |})
  | None => ([], st)
  end.

(** The loop of [get_model_by_id] over [self._models]. *)
Fixpoint find_model (models : list ModelInfo) (model_id : string)
  : option ModelInfo :=
  match models with
  | [] => None
  | model :: rest =>
      if String.eqb (identifier model) model_id then Some model
      else find_model rest model_id
  end.

Section Api.

Variable json_loads : string -> result pyval.
Variable order : SetOrder.
Variable new_session : string -> Session.

Definition get_model_by_id (model_id : string) : M State (option ModelInfo) :=
  st <- get_state ;;
  (if is_empty (_models st)
   then fetch_models json_loads order new_session ;; ret tt
   else ret tt) ;;
  st <- get_state ;;
  ret (find_model (_models st) model_id).

(** [get_available_models(session_token)]: what the [with] block returns or
    raises, the sessions closed on leaving it, and the fetcher and error
    stream left. *)
Definition get_available_models (session_token : string)
  : result (list ModelInfo) * (list Session * State) :=
  let (r, fetcher) := fetch_models json_loads order new_session (fresh session_token) in
  (r, close fetcher).

End Api.

(** ** The nodes of the walk *)

(** [visited root d depth]: walking [root], [search_dict] is called on [d]
    with this [depth]. *)
Inductive visited (root : pyval) : pyval -> Z -> Prop :=
| visited_root : visited root root 0%Z
| visited_field items depth key fields :
    visited root (PyDict items) depth ->
    (depth <= 10)%Z ->
    In (key, PyDict fields) items ->
    visited root (PyDict fields) (depth + 1)%Z
| visited_element items depth key elements fields :
    visited root (PyDict items) depth ->
    (depth <= 10)%Z ->
    In (key, PyList elements) items ->
    In (PyDict fields) elements ->
    visited root (PyDict fields) (depth + 1)%Z.

(** [fields] is a dict-valued field of a mapping the walk goes through: the
    place where the walk looks for a model definition. *)
Definition tested (root : pyval) (fields : list (string * pyval)) : Prop :=
  exists items depth key,
    visited root (PyDict items) depth
    /\ (depth <= 10)%Z
    /\ In (key, PyDict fields) items.

(** The value the walk validates at a mapping. *)
Definition node_id (fields : list (string * pyval)) : pyval :=
  Py.or_ (Py.get fields "identifier" PyNone) (Py.get fields "modelId" PyNone).

(** The entry made of a mapping whose identifier is [s]. *)
Definition node_model (fields : list (string * pyval)) (s : string) : ModelInfo :=
  {| identifier := s;
     name := Py.get fields "name" (PyStr s);
     description := Py.get fields "description" (PyStr "");
     mode := Py.get fields "mode" (PyStr "copilot");
     provider := Py.get fields "provider" (PyStr "unknown");
     is_pro := Py.get fields "isPro" (PyBool false);
     supports_reasoning := mentions_reasoning s |}.

(** [m] is the entry of a tested mapping with a valid identifier. *)
Definition from_tested (root : pyval) (m : ModelInfo) : Prop :=
  exists fields s,
    tested root fields
    /\ node_id fields = PyStr s
    /\ _is_valid_model_id (PyStr s) = inr true
    /\ m = node_model fields s.

(** [l'] is [l] with entries added at its end. *)
Definition extends (l l' : list ModelInfo) : Prop :=
  exists extra, l' = (l ++ extra)%list.

(** A block that only ever appends to the list. *)
Definition grows {A} (c : M (list ModelInfo) A) : Prop :=
  forall l, extends l (snd (c l)).

(** A letter, a digit or an underscore: what [[a-z0-9_]] matches when
    letter case is ignored. *)
Definition is_id_char (c : ascii) : bool :=
  Str.is_lower c || Str.is_upper c || Re.is_digit c || Ascii.eqb c "_".

Fixpoint all_chars (p : ascii -> bool) (s : string) : bool :=
  match s with
  | EmptyString => true
  | String c s' => p c && all_chars p s'
  end.

(** [s.isascii()]: every character of [s] is below 128.  On such strings
    the case mappings and the letter classes of Python are the ones of
    [Str] and [Re]. *)
Definition isascii (s : string) : bool :=
  all_chars (fun c => Str.code c <? 128) s.

(** ** More sample data *)

(** Embedded data in which a record that is no model has a numeric
    [identifier], beside a model definition. *)
Definition numeric_identifier_data : pyval :=
  PyDict [("user", PyDict [("identifier", PyNum 12345)]);
          ("model", PyDict gpt51_fields)].

(** A page whose embedded data is the JSON array [[]], and whose script
    names [claude45sonnet]. *)
Definition array_page : string :=
  page_with "[]" "<script>var modelId = 'claude45sonnet';</script>".
Definition array_loads : string -> result pyval :=
  loads_only "[]" (PyList []).

(** A page whose embedded script is cut short, and whose script names
    [claude45sonnet]. *)
Definition truncated_page : string :=
  page_with "{" "<script>var modelId = 'claude45sonnet';</script>".

(** ** What a pattern matches *)

(** [matches fl r w g g']: the pattern [r] can match the text [w], turning
    the content [g] of group 1 into [g']. *)
Inductive matches (fl : Re.flags)
  : Re.regex -> string -> option string -> option string -> Prop :=
| matches_begin g : matches fl Re.RBegin "" g g
| matches_empty g : matches fl Re.REmpty "" g g
| matches_set items c g :
    Re.char_in fl items c = true ->
    matches fl (Re.RSet items) (String c "") g g
| matches_cat r1 r2 w1 w2 g g1 g2 :
    matches fl r1 w1 g g1 -> matches fl r2 w2 g1 g2 ->
    matches fl (Re.RCat r1 r2) (w1 ++ w2) g g2
| matches_opt_none r g : matches fl (Re.ROpt r) "" g g
| matches_opt_some r w g g1 :
    matches fl r w g g1 -> matches fl (Re.ROpt r) w g g1
| matches_star_stop greedy r g : matches fl (Re.RStar greedy r) "" g g
| matches_star_more greedy r w1 w2 g g1 g2 :
    matches fl r w1 g g1 -> matches fl (Re.RStar greedy r) w2 g1 g2 ->
    matches fl (Re.RStar greedy r) (w1 ++ w2) g g2
| matches_group r w g g1 :
    matches fl r w g g1 -> matches fl (Re.RGroup r) w g (Some w).

(** A pattern without a group. *)
Fixpoint group_free (r : Re.regex) : bool :=
  match r with
  | Re.RBegin | Re.REmpty | Re.RSet _ => true
  | Re.RCat r1 r2 => group_free r1 && group_free r2
  | Re.ROpt r1 | Re.RStar _ r1 => group_free r1
  | Re.RGroup _ => false
  end.

(** The class [[a-z0-9_]]. *)
Definition id_class : list Re.citem :=
  [Re.CRange "a" "z"; Re.CRange "0" "9"; Re.CLit "_"].

(** A settings answer whose second model has no identifier value. *)
Definition partly_ill_typed_settings : list (string * pyval) :=
  [("models",
    PyList [PyStr "gpt51"; PyDict [("identifier", PyNone)];
            PyStr "claude45sonnet"]);
   ("supportedModels", PyList [PyStr "sonar"])].

(** The text of a pattern made of literal characters only. *)
Fixpoint literal_text (r : Re.regex) : option string :=
  match r with
  | Re.REmpty => Some ""
  | Re.RSet [Re.CLit c] => Some (String c "")
  | Re.RCat r1 r2 =>
      match literal_text r1, literal_text r2 with
      | Some t1, Some t2 => Some (t1 ++ t2)
      | _, _ => None
      end
  | _ => None
  end.

(** The opening tag of the embedded script. *)
Definition next_data_open : string :=
  "<script id=" ++ quoted "__NEXT_DATA__" ++ " type="
  ++ quoted "application/json" ++ ">".

(** * Verification *)

(** ** Facts about strings and the matcher *)

Module StrFacts.

Lemma all_ascii (c : ascii) : In c (map ascii_of_nat (seq 0 256)).
Proof.
  rewrite <- (ascii_nat_embedding c).
  apply in_map, in_seq. pose proof (nat_ascii_bounded c). lia.
Qed.

(** A boolean property of characters checked on all 256 of them. *)
Lemma by_cases (P : ascii -> bool) :
  forallb P (map ascii_of_nat (seq 0 256)) = true -> forall c, P c = true.
Proof.
  intros H c. rewrite forallb_forall in H. apply H, all_ascii.
Qed.

Lemma by_cases2 (P : ascii -> ascii -> bool) :
  forallb (fun a => forallb (P a) (map ascii_of_nat (seq 0 256)))
          (map ascii_of_nat (seq 0 256)) = true ->
  forall a b, P a b = true.
Proof.
  intros H a b.
  apply (by_cases (P a)). apply (by_cases _ H a).
Qed.

Lemma length_map_chars f s :
  String.length (Str.map_chars f s) = String.length s.
Proof. induction s; simpl; congruence. Qed.

Lemma length_title_from b s :
  String.length (Str.title_from b s) = String.length s.
Proof. revert b; induction s; intros; simpl; auto. Qed.

Lemma prefix_app p s : String.prefix p (p ++ s) = true.
Proof.
  induction p as [|c p IH]; simpl.
  - destruct s; reflexivity.
  - destruct (ascii_dec c c); [exact IH | congruence].
Qed.

Lemma prefix_split p s :
  String.prefix p s = true -> exists rest, s = p ++ rest.
Proof.
  revert s; induction p as [|c p IH]; intros s H.
  - exists s; reflexivity.
  - destruct s as [|d s]; simpl in H; [discriminate|].
    destruct (ascii_dec c d) as [->|]; [|discriminate].
    destruct (IH _ H) as [rest ->]. exists rest; reflexivity.
Qed.

(** [sub in s] holds exactly when [sub] occurs in [s]. *)
Lemma contains_spec sub s :
  Str.contains sub s = true <-> Spec.occurs_in sub s.
Proof.
  split.
  - induction s as [|c s IH]; intros H; cbn [Str.contains] in H.
    + rewrite orb_false_r in H. destruct (prefix_split _ _ H) as [rest E].
      exists "", rest. exact E.
    + apply orb_true_iff in H as [H|H].
      * destruct (prefix_split _ _ H) as [rest E]. exists "", rest. exact E.
      * destruct (IH H) as (a & b & E). exists (String c a), b.
        simpl. now rewrite E.
  - intros (a & b & ->). induction a as [|c a IH].
    + change ("" ++ sub ++ b) with (sub ++ b).
      destruct (sub ++ b) eqn:E; cbn [Str.contains];
        rewrite <- E, prefix_app; reflexivity.
    + change (String c a ++ sub ++ b) with (String c (a ++ sub ++ b)).
      cbn [Str.contains]. rewrite IH. apply orb_true_r.
Qed.

End StrFacts.

Module ReFacts.

(** Under IGNORECASE a literal matches the characters with its lower case. *)
Lemma lit_ignorecase l c :
  Re.char_in ignorecase [Re.CLit l] c
  = Ascii.eqb (Str.lower_char l) (Str.lower_char c).
Proof.
  apply eqb_prop.
  apply (StrFacts.by_cases2
           (fun l c => Bool.eqb (Re.char_in ignorecase [Re.CLit l] c)
                                (Ascii.eqb (Str.lower_char l) (Str.lower_char c)))).
  vm_compute. reflexivity.
Qed.

Lemma digit_ignorecase c :
  Re.char_in ignorecase [Re.CDigit] c = Re.is_digit c.
Proof.
  apply eqb_prop.
  apply (StrFacts.by_cases
           (fun c => Bool.eqb (Re.char_in ignorecase [Re.CDigit] c) (Re.is_digit c))).
  vm_compute. reflexivity.
Qed.

(** A run of literals matches a prefix, letter case ignored, and consumes it. *)
Lemma run_lits total p : forall s g k,
  Re.run ignorecase total (Re.lits p) s g k
  = if Spec.starts_ci s p then k (Str.drop (String.length p) s) g else None.
Proof.
  unfold Spec.starts_ci.
  induction p as [|l p IH]; intros s g k.
  - simpl. destruct s; reflexivity.
  - destruct s as [|c s].
    + reflexivity.
    + cbn [Re.lits Re.lit Re.run]. rewrite lit_ignorecase, IH.
      cbn [Str.lower Str.map_chars String.prefix String.length Str.drop].
      fold (Str.lower p) (Str.lower s).
      destruct (ascii_dec (Str.lower_char l) (Str.lower_char c)) as [E|N].
      * rewrite E, Ascii.eqb_refl. reflexivity.
      * apply Ascii.eqb_neq in N. rewrite N. reflexivity.
Qed.

Lemma run_anchored p s g k :
  Re.run ignorecase (String.length s) (anchored p) s g k
  = if Spec.starts_ci s p then k (Str.drop (String.length p) s) g else None.
Proof.
  unfold anchored. cbn [Re.run]. rewrite Nat.eqb_refl. apply run_lits.
Qed.

(** [re.match(r"^p", s, re.IGNORECASE)] *)
Lemma re_match_anchored p s :
  Re.re_match ignorecase (anchored p) s = Spec.starts_ci s p.
Proof.
  unfold Re.re_match, Re.match_here. rewrite run_anchored.
  destruct (Spec.starts_ci s p); reflexivity.
Qed.

Lemma get_drop n : forall s,
  String.get n s
  = match Str.drop n s with String c _ => Some c | EmptyString => None end.
Proof.
  induction n as [|n IH]; intros [|c s]; simpl; auto.
Qed.

(** [re.match(r"^gpt\d", s, re.IGNORECASE)] *)
Lemma re_match_gpt_digit s :
  Re.re_match ignorecase (Re.RCat (anchored "gpt") (Re.RSet [Re.CDigit])) s
  = Spec.gpt_digit s.
Proof.
  unfold Re.re_match, Re.match_here, Spec.gpt_digit.
  cbn [Re.run]. rewrite run_anchored, (get_drop 3).
  destruct (Spec.starts_ci s "gpt"); [|reflexivity].
  cbn [Re.run String.length andb].
  destruct (Str.drop 3 s) as [|c rest]; [reflexivity|].
  rewrite digit_ignorecase. destruct (Re.is_digit c); reflexivity.
Qed.

End ReFacts.

(** ** Identifier validation *)

Lemma any_match_str ps s :
  any_match ps (PyStr s)
  = inr (existsb (fun p => Re.re_match ignorecase p s) ps).
Proof.
  induction ps as [|p ps IH]; [reflexivity|].
  cbn [any_match Py.re_match_i bind Monad_result existsb].
  fold ignorecase. rewrite IH.
  destruct (Re.re_match ignorecase p s); reflexivity.
Qed.

Lemma excluded_str s :
  existsb (fun p => Re.re_match ignorecase p s) exclude_patterns
  = existsb (Spec.starts_ci s) Spec.deny_list.
Proof.
  unfold exclude_patterns, Spec.deny_list. cbn [existsb].
  rewrite !ReFacts.re_match_anchored. reflexivity.
Qed.

Lemma allowed_str s :
  existsb (fun p => Re.re_match ignorecase p s) valid_patterns
  = existsb (Spec.starts_ci s) Spec.allow_list || Spec.gpt_digit s.
Proof.
  unfold valid_patterns, Spec.allow_list. cbn [existsb].
  rewrite !ReFacts.re_match_anchored, ReFacts.re_match_gpt_digit.
  destruct (Spec.starts_ci s "pplx_"), (Spec.gpt_digit s); cbn [orb];
    rewrite ?orb_false_r, ?orb_true_r; reflexivity.
Qed.

(** On a string the validation never raises, and computes this. *)
Lemma is_valid_str s :
  _is_valid_model_id (PyStr s)
  = inr ((3 <=? String.length s)
         && negb (existsb (Spec.starts_ci s) Spec.deny_list)
         && (existsb (Spec.starts_ci s) Spec.allow_list || Spec.gpt_digit s)).
Proof.
  unfold _is_valid_model_id.
  cbn [Py.truthy Py.len bind ret Monad_result].
  destruct (String.eqb_spec s "") as [->|N]; [reflexivity|].
  cbn [negb]. rewrite Nat.ltb_antisym.
  destruct (3 <=? String.length s); [|reflexivity].
  cbn [negb andb]. rewrite !any_match_str, excluded_str, allowed_str.
  destruct (existsb (Spec.starts_ci s) Spec.deny_list); reflexivity.
Qed.

(** C3.  For every string [s], validation returns a boolean, and it accepts
    [s] exactly when [s] has length at least 3, starts (letter case ignored)
    with no prefix of the deny-list, and starts with a prefix of the
    allow-list or with [gpt] and a digit.  A string that starts with a
    deny-list prefix is rejected whatever the allow-list says, and so is
    [api_internal_key]. *)
Theorem valid_model_id_iff :
  (forall s,
      (exists b, _is_valid_model_id (PyStr s) = inr b)
      /\ (_is_valid_model_id (PyStr s) = inr true
          <-> 3 <= String.length s
              /\ (forall p, In p Spec.deny_list -> Spec.starts_ci s p = false)
              /\ ((exists p, In p Spec.allow_list /\ Spec.starts_ci s p = true)
                  \/ Spec.gpt_digit s = true)))
  /\ (forall s p, In p Spec.deny_list -> Spec.starts_ci s p = true ->
                  _is_valid_model_id (PyStr s) = inr false)
  /\ _is_valid_model_id (PyStr "api_internal_key") = inr false.
Proof.
  split; [|split].
  - intros s. rewrite is_valid_str. split; [eexists; reflexivity|].
    split.
    + intros H.
      apply (f_equal (fun r : result bool =>
                        match r with inr b => b | inl _ => false end)) in H.
      cbv beta iota in H.
      apply andb_true_iff in H as [H Ha].
      apply andb_true_iff in H as [Hl Hd].
      apply Nat.leb_le in Hl. apply negb_true_iff in Hd.
      split; [exact Hl|]. split.
      * intros p Hp. destruct (Spec.starts_ci s p) eqn:E; [|reflexivity].
        assert (existsb (Spec.starts_ci s) Spec.deny_list = true)
          by (apply existsb_exists; eauto).
        congruence.
      * apply orb_true_iff in Ha as [Ha|Ha]; [left|right; exact Ha].
        apply existsb_exists in Ha. exact Ha.
    + intros (Hl & Hd & Ha). f_equal.
      apply andb_true_iff; split; [apply andb_true_iff; split|].
      * apply Nat.leb_le, Hl.
      * apply negb_true_iff.
        destruct (existsb (Spec.starts_ci s) Spec.deny_list) eqn:E; [|reflexivity].
        apply existsb_exists in E as (p & Hp & E).
        rewrite (Hd p Hp) in E. discriminate.
      * apply orb_true_iff. destruct Ha as [Ha|Ha]; [left|right; exact Ha].
        apply existsb_exists. exact Ha.
  - intros s p Hp E. rewrite is_valid_str.
    assert (existsb (Spec.starts_ci s) Spec.deny_list = true) as ->
        by (apply existsb_exists; eauto).
    rewrite andb_false_r. reflexivity.
  - reflexivity.
Qed.

(** ** Metadata inference *)

Lemma infer_provider_rules model_id :
  _infer_provider model_id
  = Spec.first_rule Spec.provider_rules (Str.lower model_id).
Proof.
  unfold _infer_provider, Spec.provider_rules, Str.startswith.
  cbn [Spec.first_rule].
  destruct (String.prefix "pplx" (Str.lower model_id)); reflexivity.
Qed.

(** C9.  For every identifier, the inferred metadata has [is_pro] true
    exactly when the lower-cased identifier contains [pro] or [alpha],
    [supports_reasoning] true exactly when it contains [thinking] or
    [reasoning], and the provider of the first prefix rule that applies;
    [claude45sonnetthinking] gets provider Anthropic, reasoning support and
    no pro flag. *)
Theorem create_model_info_inference :
  (forall model_id,
      let m := _create_model_info model_id in
      identifier m = model_id
      /\ (exists pro, is_pro m = PyBool pro
                      /\ (pro = true <->
                          Spec.occurs_in "pro" (Str.lower model_id)
                          \/ Spec.occurs_in "alpha" (Str.lower model_id)))
      /\ (supports_reasoning m = true <->
          Spec.occurs_in "thinking" (Str.lower model_id)
          \/ Spec.occurs_in "reasoning" (Str.lower model_id))
      /\ provider m
         = PyStr (Spec.first_rule Spec.provider_rules (Str.lower model_id)))
  /\ (let m := _create_model_info "claude45sonnetthinking" in
      provider m = PyStr "Anthropic"
      /\ supports_reasoning m = true
      /\ is_pro m = PyBool false).
Proof.
  split.
  - intros model_id m. subst m. cbn [_create_model_info identifier is_pro
                                     supports_reasoning provider].
    split; [reflexivity|]. split; [|split].
    + eexists; split; [reflexivity|].
      rewrite orb_true_iff, !StrFacts.contains_spec. reflexivity.
    + unfold mentions_reasoning.
      rewrite orb_true_iff, !StrFacts.contains_spec. reflexivity.
    + rewrite infer_provider_rules. reflexivity.
  - repeat split.
Qed.

(** ** The walk of the embedded JSON *)

(** C6.  In a structure of nested mappings 15 levels deep, a valid model
    definition at nesting depth 12 is not extracted, and one at nesting
    depth 9 is. *)
Theorem depth_bound_12_9 :
  _parse_next_data (nested15 12) = inr []
  /\ _parse_next_data (nested15 9) = inr [gpt51_model].
Proof. split; vm_compute; reflexivity. Qed.

(** Where exactly the walk stops: the definition is extracted at the depths
    1 to 11 and at no other. *)
Lemma depth_bound_exact model_depth :
  model_depth <= 15 ->
  _parse_next_data (nested15 model_depth)
  = inr (if (1 <=? model_depth) && (model_depth <=? 11)
         then [gpt51_model] else []).
Proof.
  intros H.
  do 16 (destruct model_depth as [|model_depth];
         [vm_compute; reflexivity|]).
  lia.
Qed.

(** What the test on a dict-valued field does when the first true value
    among its [identifier] and [modelId] is a string that passes the
    validation: one entry is appended, made of the sibling fields. *)
Lemma model_definition_synthesizes fields s models :
  Py.or_ (Py.get fields "identifier" PyNone) (Py.get fields "modelId" PyNone)
  = PyStr s ->
  _is_valid_model_id (PyStr s) = inr true ->
  model_definition fields models
  = (inr tt,
     (models ++
      [{| identifier := s;
          name := Py.get fields "name" (PyStr s);
          description := Py.get fields "description" (PyStr "");
          mode := Py.get fields "mode" (PyStr "copilot");
          provider := Py.get fields "provider" (PyStr "unknown");
          is_pro := Py.get fields "isPro" (PyBool false);
          supports_reasoning :=
            Str.contains "thinking" (Str.lower s)
            || Str.contains "reasoning" (Str.lower s) |}])%list).
Proof.
  intros Hid Hvalid. unfold model_definition. rewrite Hid.
  assert (Hs : s <> "").
  { intros ->. vm_compute in Hvalid. discriminate. }
  assert (Hkey : Py.has_key "identifier" fields || Py.has_key "modelId" fields
                 = true).
  { unfold Py.or_, Py.get, Py.has_key in *.
    destruct (Py.lookup "identifier" fields) as [v|]; [reflexivity|].
    destruct (Py.lookup "modelId" fields) as [v|]; [reflexivity|].
    discriminate. }
  rewrite Hkey. cbn [Py.truthy].
  apply String.eqb_neq in Hs. rewrite Hs. cbn [negb bind Monad_M lift].
  rewrite Hvalid. reflexivity.
Qed.

(** C7, evaluated.  A definition is recognised where it is the value of a
    field, but not where it is an element of a sequence, nor at the root:
    the walk enters such a mapping without testing it. *)
Theorem definition_in_list_or_root_missed :
  _parse_next_data model_in_field = inr [gpt51_model]
  /\ _parse_next_data models_in_list = inr []
  /\ _parse_next_data (PyDict gpt51_fields) = inr [].
Proof. repeat split; vm_compute; reflexivity. Qed.

(** ** Invariants of the two passes *)

Lemma bind_preserves {L A B} (P : L -> Prop) (c : M L A) (f : A -> M L B) l :
  P l ->
  (forall l0, P l0 -> P (snd (c l0))) ->
  (forall a l0, P l0 -> P (snd (f a l0))) ->
  P (snd (bind c f l)).
Proof.
  intros Hl Hc Hf. cbn [bind Monad_M]. specialize (Hc l Hl).
  destruct (c l) as [[e|a] l1]; cbn [snd] in *; [exact Hc|].
  apply Hf, Hc.
Qed.

Lemma for_each_preserves {L A} (P : L -> Prop) (body : A -> M L unit) xs :
  (forall x l, In x xs -> P l -> P (snd (body x l))) ->
  forall l, P l -> P (snd (for_each xs body l)).
Proof.
  induction xs as [|x xs IH]; intros Hbody l Hl; [exact Hl|].
  change (for_each (x :: xs) body) with (body x ;; for_each xs body).
  apply bind_preserves; [exact Hl| |].
  - intros l0 H0. apply Hbody; [left; reflexivity|exact H0].
  - intros _ l0 H0. apply IH; [|exact H0].
    intros y l1 Hy. apply Hbody. right. exact Hy.
Qed.

(** Whatever [search_dict] appends has a validated identifier. *)
Lemma model_definition_validated fields models :
  Forall validated models ->
  Forall validated (snd (model_definition fields models)).
Proof.
  intros H. unfold model_definition.
  destruct (Py.has_key "identifier" fields || Py.has_key "modelId" fields);
    [|exact H].
  set (model_id := Py.or_ _ _).
  destruct (Py.truthy model_id); [|exact H].
  cbn [bind Monad_M lift].
  destruct (_is_valid_model_id model_id) as [e|[|]] eqn:Hv; cbn [snd];
    try exact H.
  destruct model_id; try exact H.
  cbn [append modify snd]. apply Forall_app. split; [exact H|].
  constructor; [exact Hv|constructor].
Qed.

Lemma search_dict_validated n : forall d depth models,
  (11 - depth <= Z.of_nat n)%Z ->
  Forall validated models ->
  Forall validated (snd (search_dict d depth models)).
Proof.
  induction n as [|n IH]; intros d depth models Hn H.
  - destruct d; cbn [search_dict];
      destruct (Z.gtb_spec depth 10); try exact H; lia.
  - destruct d; cbn [search_dict];
      destruct (Z.gtb_spec depth 10); try exact H.
    apply for_each_preserves; [|exact H].
    intros [key value] ms _ Hms.
    destruct value as [|b|z|s|elements|fields]; try exact Hms.
    + apply for_each_preserves; [|exact Hms].
      intros item ms0 _ Hms0. destruct item; try exact Hms0.
      apply IH; [lia|exact Hms0].
    + apply bind_preserves; [exact Hms| |].
      * intros ms0. apply model_definition_validated.
      * intros _ ms0 Hms0. apply IH; [lia|exact Hms0].
Qed.

Lemma parse_next_data_validated data models :
  _parse_next_data data = inr models -> Forall validated models.
Proof.
  unfold _parse_next_data, run_local. intros H.
  pose proof (search_dict_validated 11 data 0%Z [] ltac:(lia) (Forall_nil _)) as Hv.
  destruct (search_dict data 0%Z []) as [[e|u] l]; [discriminate|].
  injection H as <-. exact Hv.
Qed.

Lemma scan_match_valid found g found' :
  scan_match found g = inr found' -> all_valid found -> all_valid found'.
Proof.
  unfold scan_match. cbn [bind ret Monad_result].
  destruct (_is_valid_model_id (group1 g)) as [e|[|]] eqn:Hv;
    [discriminate| |]; intros H Hf; injection H as <-; [|exact Hf].
  destruct g as [model_id|]; [|exact Hf].
  apply Forall_app. split; [exact Hf|]. constructor; [exact Hv|constructor].
Qed.

Lemma scan_matches_valid ms : forall found found',
  scan_matches ms found = inr found' -> all_valid found -> all_valid found'.
Proof.
  induction ms as [|g ms IH]; intros found found' H Hf.
  - injection H as <-. exact Hf.
  - cbn [scan_matches bind Monad_result] in H.
    destruct (scan_match found g) as [e|found1] eqn:E; [discriminate|].
    eapply IH; [exact H|]. eapply scan_match_valid; eassumption.
Qed.

Lemma scan_patterns_valid ps html : forall found found',
  scan_patterns ps html found = inr found' -> all_valid found -> all_valid found'.
Proof.
  induction ps as [|p ps IH]; intros found found' H Hf.
  - injection H as <-. exact Hf.
  - cbn [scan_patterns bind Monad_result] in H.
    destruct (scan_matches (Re.re_finditer ignorecase p html) found)
      as [e|found1] eqn:E; [discriminate|].
    eapply IH; [exact H|]. eapply scan_matches_valid; eassumption.
Qed.

Lemma validated_length m : validated m -> 3 <= String.length (identifier m).
Proof.
  unfold validated. rewrite is_valid_str. intros H.
  apply (f_equal (fun r : result bool =>
                    match r with inr b => b | inl _ => false end)) in H.
  cbv beta iota in H.
  apply andb_true_iff in H as [H _]. apply andb_true_iff in H as [H _].
  apply Nat.leb_le, H.
Qed.

Lemma table_get_in t key n : table_get t key = Some n -> In n (map snd t).
Proof.
  induction t as [|[k v] t IH]; [discriminate|].
  cbn [table_get map snd]. destruct (String.eqb key k).
  - intros H. injection H as <-. left. reflexivity.
  - intros H. right. apply IH, H.
Qed.

(** An inferred name is empty only for the empty identifier. *)
Lemma infer_model_name_nonempty model_id :
  model_id <> "" -> _infer_model_name model_id <> "".
Proof.
  intros Hid. unfold _infer_model_name.
  destruct (table_get name_mappings model_id) as [n|] eqn:E.
  - apply table_get_in in E. cbn in E.
    repeat (destruct E as [<-|E]; [discriminate|]). destruct E.
  - intros H. apply (f_equal String.length) in H.
    unfold Str.title, Str.replace_char in H.
    rewrite StrFacts.length_title_from, StrFacts.length_map_chars in H.
    destruct model_id; [congruence|discriminate].
Qed.

Lemma create_model_info_named model_id :
  3 <= String.length model_id -> named (_create_model_info model_id).
Proof.
  intros H. eexists. split; [reflexivity|].
  apply infer_model_name_nonempty. intros ->. cbn in H. lia.
Qed.

Lemma default_models_validated :
  Forall (fun m => validated m /\ named m) _get_default_models.
Proof.
  repeat constructor; try (vm_compute; reflexivity);
    (eexists; split; [reflexivity|discriminate]).
Qed.

Lemma mem_in x l : Str.mem x l = true <-> In x l.
Proof.
  unfold Str.mem. rewrite existsb_exists. split.
  - intros (y & Hy & E). apply String.eqb_eq in E. subst. exact Hy.
  - intros H. exists x. split; [exact H|apply String.eqb_refl].
Qed.

Lemma with_identifier_none i ids :
  ~ In i ids -> with_identifier i (map _create_model_info ids) = [].
Proof.
  unfold with_identifier. induction ids as [|j ids IH]; intros H; [reflexivity|].
  cbn [map filter _create_model_info identifier].
  destruct (String.eqb_spec j i) as [->|N].
  - exfalso. apply H. left. reflexivity.
  - apply IH. intros Hin. apply H. right. exact Hin.
Qed.

(** ** The extractor *)

Section ExtractFacts.

Variable json_loads : string -> result pyval.
Variable order : SetOrder.

Lemma scan_patterns_no_match ps html :
  (forall p, In p ps -> Re.re_finditer ignorecase p html = []) ->
  forall found, scan_patterns ps html found = inr found.
Proof.
  induction ps as [|p ps IH]; intros H found; [reflexivity|].
  cbn [scan_patterns]. rewrite (H p (or_introl eq_refl)).
  cbn [scan_matches bind ret Monad_result]. apply IH.
  intros q Hq. apply H. right. exact Hq.
Qed.

Lemma set_iter_nil : set_iter order [] = [].
Proof. apply Permutation_nil, Permutation_sym, (set_iter_perm order []). Qed.

Lemma next_data_models_validated html pass_a :
  next_data_models json_loads html = inr pass_a -> Forall validated pass_a.
Proof.
  unfold next_data_models.
  destruct (Re.re_search dotall next_data_pattern html) as [g|].
  - cbn [catch MonadExn_result bind Monad_result].
    destruct (match g with Some txt => json_loads txt | None => _ end)
      as [e|data].
    + destruct (is_JSONDecodeError e); [|discriminate].
      intros H. injection H as <-. constructor.
    + destruct (_parse_next_data data) as [e|models] eqn:E.
      * destruct (is_JSONDecodeError e); [|discriminate].
        intros H. injection H as <-. constructor.
      * intros H. injection H as <-.
        apply (parse_next_data_validated _ _ E).
  - intros H. injection H as <-. constructor.
Qed.

(** A [JSONDecodeError] of the embedded script is absorbed where it is
    raised: the script then gives no model, and the extraction goes on. *)
Lemma json_decode_error_absorbed html txt e :
  Re.re_search dotall next_data_pattern html = Some (Some txt) ->
  json_loads txt = inl e ->
  is_JSONDecodeError e = true ->
  next_data_models json_loads html = inr [].
Proof.
  intros Hs Hl He. unfold next_data_models. rewrite Hs.
  cbn [catch MonadExn_result bind Monad_result]. rewrite Hl, He. reflexivity.
Qed.

(** The output of the extractor, taken apart. *)
Lemma extract_inv html out :
  _extract_models_from_html json_loads order html = inr out ->
  exists pass_a found,
    next_data_models json_loads html = inr pass_a
    /\ scan_patterns model_patterns html [] = inr found
    /\ out = (pass_a ++
              map _create_model_info
                  (filter (fun i => negb (Str.mem i (map identifier pass_a)))
                          (set_iter order found)))%list.
Proof.
  unfold _extract_models_from_html. cbn [bind ret Monad_result].
  destruct (next_data_models json_loads html) as [e|pass_a]; [discriminate|].
  destruct (scan_patterns model_patterns html []) as [e|found]; [discriminate|].
  intros H. injection H as <-. exists pass_a, found. auto.
Qed.

Lemma set_iter_in found i : In i (set_iter order found) <-> In i found.
Proof.
  rewrite <- (nodup_In string_dec found i). split; intros H.
  - eapply Permutation_in; [apply set_iter_perm|exact H].
  - eapply Permutation_in; [apply Permutation_sym, set_iter_perm|exact H].
Qed.

Lemma set_iter_nodup found : NoDup (set_iter order found).
Proof.
  eapply Permutation_NoDup; [apply Permutation_sym, set_iter_perm|].
  apply NoDup_nodup.
Qed.

(** C5, amended.  The output of the extractor is the list of Pass A
    followed by one inferred entry for each identifier that the pattern scan
    of Pass B found and Pass A did not produce, each such identifier once.
    So for an identifier produced by both passes, the output has the entries
    of Pass A with that identifier and no other. *)
Theorem extract_merge html out :
  _extract_models_from_html json_loads order html = inr out ->
  exists pass_a found new_ids,
    next_data_models json_loads html = inr pass_a
    /\ scan_patterns model_patterns html [] = inr found
    /\ out = (pass_a ++ map _create_model_info new_ids)%list
    /\ NoDup new_ids
    /\ (forall i, In i new_ids <->
                  In i found /\ ~ In i (map identifier pass_a))
    /\ (forall i, In i (map identifier pass_a) ->
                  with_identifier i out = with_identifier i pass_a).
Proof.
  intros H. destruct (extract_inv _ _ H) as (pass_a & found & Ha & Hb & ->).
  set (new_ids := filter _ _).
  assert (Hnew : forall i, In i new_ids <->
                           In i found /\ ~ In i (map identifier pass_a)).
  { intros i. unfold new_ids. rewrite filter_In, set_iter_in, negb_true_iff.
    rewrite <- (mem_in i (map identifier pass_a)).
    destruct (Str.mem i (map identifier pass_a)); intuition congruence. }
  exists pass_a, found, new_ids.
  split; [exact Ha|]. split; [exact Hb|]. split; [reflexivity|].
  split; [apply NoDup_filter, set_iter_nodup|]. split; [exact Hnew|].
  intros i Hi. unfold with_identifier at 1. rewrite filter_app.
  fold (with_identifier i pass_a).
  fold (with_identifier i (map _create_model_info new_ids)).
  rewrite with_identifier_none, app_nil_r; [reflexivity|].
  intros Hin. apply Hnew in Hin. tauto.
Qed.

End ExtractFacts.

(** ** [fetch_models] *)

Section FetcherFacts.

Variable json_loads : string -> result pyval.
Variable order : SetOrder.
Variable new_session : string -> Session.

Lemma get_session_run st :
  _get_session new_session st
  = (inr (the_session new_session st), session_opened new_session st).
Proof.
  unfold _get_session, the_session, session_opened.
  destruct (_session st); reflexivity.
Qed.

Lemma session_opened_twice st :
  the_session new_session (session_opened new_session st)
  = the_session new_session st
  /\ session_opened new_session (session_opened new_session st)
     = session_opened new_session st.
Proof.
  unfold the_session, session_opened.
  destruct (_session st) eqn:E; cbn; rewrite ?E; auto.
Qed.

(** No exception leaves the loop over the endpoints. *)
Lemma settings_endpoint_returns session endpoint models :
  fst (settings_endpoint session endpoint models) = inr tt.
Proof.
  unfold settings_endpoint. cbn [catch MonadExn_M].
  match goal with |- context [match ?c with _ => _ end] => destruct c as [[e|[]] l] end;
    reflexivity.
Qed.

Lemma for_each_returns {A L} (body : A -> M L unit) :
  (forall x l, fst (body x l) = inr tt) ->
  forall xs l, fst (for_each xs body l) = inr tt.
Proof.
  intros Hbody xs. induction xs as [|x xs IH]; intros l; [reflexivity|].
  cbn [for_each bind Monad_M]. specialize (Hbody x l).
  destruct (body x l) as [[e|[]] l']; cbn in Hbody; [discriminate|]. apply IH.
Qed.

Lemma settings_loop_returns session :
  settings_loop session = inr (settings_models session).
Proof.
  unfold settings_loop, settings_models, run_local.
  pose proof (for_each_returns (settings_endpoint session)
                (settings_endpoint_returns session) endpoints []) as H.
  destruct (for_each endpoints (settings_endpoint session) []) as [[e|[]] l];
    cbn in H; [discriminate|reflexivity].
Qed.

Lemma fetch_from_settings_run st :
  _fetch_from_settings new_session (session_opened new_session st)
  = (inr (settings_models (the_session new_session st)),
     session_opened new_session st).
Proof.
  unfold _fetch_from_settings. cbn [bind Monad_M ret lift].
  rewrite get_session_run.
  destruct (session_opened_twice st) as [-> ->].
  rewrite settings_loop_returns. reflexivity.
Qed.

(** The whole of [fetch_models], case by case. *)
Lemma fetch_models_run st :
  fetch_models json_loads order new_session st
  = let session := the_session new_session st in
    let st1 := session_opened new_session st in
    let failed e := (inr _get_default_models, after_error e st1) in
    match get session API_BASE_URL with
    | inl e => failed e
    | inr response =>
        match raise_for_status response with
        | Some e => failed e
        | None =>
            match _extract_models_from_html json_loads order (text response) with
            | inl e => failed e
            | inr page =>
                let models := chosen page (settings_models session) in
                (inr models, set_models models st1)
            end
        end
    end.
Proof.
  unfold fetch_models, fetch_body, after_error, chosen.
  cbn [bind catch Monad_M MonadExn_M ret raise lift modify get_state].
  rewrite get_session_run. cbv zeta.
  destruct (get (the_session new_session st) API_BASE_URL) as [e|response];
    [reflexivity|].
  destruct (raise_for_status response) as [e|]; [reflexivity|].
  cbn [bind Monad_result ret].
  destruct (_extract_models_from_html json_loads order (text response))
    as [e|page]; [reflexivity|].
  destruct page as [|m page]; cbn [is_empty].
  - rewrite fetch_from_settings_run.
    destruct (settings_models (the_session new_session st)); reflexivity.
  - reflexivity.
Qed.

Lemma stderr_after_error e st :
  stderr (after_error e (session_opened new_session st))
  = (stderr st ++ [error_line e])%list
  /\ _models (after_error e (session_opened new_session st))
     = _get_default_models.
Proof.
  unfold after_error, session_opened.
  destruct (_session st); split; reflexivity.
Qed.

(** C1, amended.  [fetch_models] always returns a list, never an exception.
    When an exception leaves the request for the page, the status check or
    the extraction inside its [try] block, the list is the static catalog
    and one line naming the exception has been written to the error stream.
    When no exception leaves these three steps, nothing is written: an
    exception absorbed deeper down (the [JSONDecodeError] of the embedded
    script, anything inside a settings endpoint) is not reported. *)
Theorem fetch_models_never_raises st :
  exists models st',
    fetch_models json_loads order new_session st = (inr models, st')
    /\ (forall e,
          raised_in_try json_loads order (the_session new_session st) e ->
          models = _get_default_models
          /\ stderr st' = (stderr st ++ [error_line e])%list
          /\ _models st' = _get_default_models)
    /\ ((forall e,
           ~ raised_in_try json_loads order (the_session new_session st) e) ->
        stderr st' = stderr st).
Proof.
  rewrite fetch_models_run. cbv zeta. unfold raised_in_try.
  destruct (get (the_session new_session st) API_BASE_URL) as [e0|response].
  - do 2 eexists. split; [reflexivity|]. split.
    + intros e [H|(r & H & _)]; [|discriminate].
      injection H as <-. split; [reflexivity|]. apply stderr_after_error.
    + intros Hnone. exfalso. apply (Hnone e0). left. reflexivity.
  - destruct (raise_for_status response) as [e0|] eqn:Hs.
    + do 2 eexists. split; [reflexivity|]. split.
      * intros e [H|(r & H & H')]; [discriminate|].
        injection H as <-. rewrite Hs in H'.
        destruct H' as [H'|[H' _]]; [|discriminate].
        injection H' as <-. split; [reflexivity|]. apply stderr_after_error.
      * intros Hnone. exfalso. apply (Hnone e0). right.
        exists response. split; [reflexivity|]. left. exact Hs.
    + destruct (_extract_models_from_html json_loads order (text response))
        as [e0|page] eqn:Hx.
      * do 2 eexists. split; [reflexivity|]. split.
        -- intros e [H|(r & H & H')]; [discriminate|].
           injection H as <-. rewrite Hs, Hx in H'.
           destruct H' as [H'|[_ H']]; [discriminate|].
           injection H' as <-. split; [reflexivity|]. apply stderr_after_error.
        -- intros Hnone. exfalso. apply (Hnone e0). right.
           exists response. split; [reflexivity|]. right. split; [exact Hs|exact Hx].
      * do 2 eexists. split; [reflexivity|]. split.
        -- intros e [H|(r & H & H')]; [discriminate|].
           injection H as <-. rewrite Hs, Hx in H'.
           destruct H' as [H'|[_ H']]; discriminate.
        -- intros _. unfold session_opened.
           destruct (_session st); reflexivity.
Qed.

Lemma chosen_nonempty page settings : chosen page settings <> [].
Proof.
  unfold chosen.
  destruct page; cbn [is_empty]; [|discriminate].
  destruct settings; cbn [is_empty]; discriminate.
Qed.

(** C10.  The list [fetch_models] returns is never empty. *)
Theorem fetch_models_nonempty st :
  exists models st',
    fetch_models json_loads order new_session st = (inr models, st')
    /\ models <> [].
Proof.
  rewrite fetch_models_run. cbv zeta.
  destruct (get (the_session new_session st) API_BASE_URL) as [e0|response].
  - do 2 eexists. split; [reflexivity|discriminate].
  - destruct (raise_for_status response) as [e0|].
    + do 2 eexists. split; [reflexivity|discriminate].
    + destruct (_extract_models_from_html json_loads order (text response))
        as [e0|page].
      * do 2 eexists. split; [reflexivity|discriminate].
      * do 2 eexists. split; [reflexivity|apply chosen_nonempty].
Qed.

(** C2.  When the page is fetched, holds no [__NEXT_DATA__] script and no
    match of the three patterns, and the settings endpoints give no model,
    [fetch_models] returns the static catalog: its 13 entries in their
    fixed order. *)
Theorem fallback_when_nothing_found st response :
  get (the_session new_session st) API_BASE_URL = inr response ->
  raise_for_status response = None ->
  Re.re_search dotall next_data_pattern (text response) = None ->
  (forall p, In p model_patterns ->
             Re.re_finditer ignorecase p (text response) = []) ->
  settings_loop (the_session new_session st) = inr [] ->
  _extract_models_from_html json_loads order (text response) = inr []
  /\ fst (fetch_models json_loads order new_session st)
     = inr _get_default_models
  /\ List.length _get_default_models = 13
  /\ map identifier _get_default_models = default_identifiers.
Proof.
  intros Hget Hstatus Hscript Hpatterns Hsettings.
  assert (Hx : _extract_models_from_html json_loads order (text response)
               = inr []).
  { unfold _extract_models_from_html, next_data_models.
    rewrite Hscript. cbn [bind ret Monad_result].
    rewrite (scan_patterns_no_match _ _ Hpatterns). cbn [bind ret Monad_result].
    rewrite (set_iter_nil order). reflexivity. }
  split; [exact Hx|]. split; [|split; reflexivity].
  rewrite fetch_models_run. cbv zeta. rewrite Hget, Hstatus, Hx.
  rewrite settings_loop_returns in Hsettings. injection Hsettings as ->.
  reflexivity.
Qed.

(** C4, amended.  Unless the list is the one the settings endpoints
    supplied (the page having given no model), every entry that
    [fetch_models] returns has an identifier of length at least 3, and a
    non-empty name if it does not come from the embedded JSON. *)
Theorem returned_models_validated st models :
  fst (fetch_models json_loads order new_session st) = inr models ->
  (exists response,
      get (the_session new_session st) API_BASE_URL = inr response
      /\ _extract_models_from_html json_loads order (text response) = inr []
      /\ models = settings_models (the_session new_session st))
  \/ Forall (fun m =>
               3 <= String.length (identifier m)
               /\ (named m
                   \/ exists response pass_a,
                       get (the_session new_session st) API_BASE_URL = inr response
                       /\ next_data_models json_loads (text response) = inr pass_a
                       /\ In m pass_a))
            models.
Proof.
  assert (Hdefault :
            forall P : ModelInfo -> Prop,
              Forall (fun m => 3 <= String.length (identifier m) /\ (named m \/ P m))
                     _get_default_models).
  { intros P. eapply Forall_impl; [|apply default_models_validated].
    intros m [Hv Hn]. split; [apply validated_length, Hv|left; exact Hn]. }
  rewrite fetch_models_run. cbv zeta.
  destruct (get (the_session new_session st) API_BASE_URL) as [e|response] eqn:Hget.
  { intros H. injection H as <-. right. apply Hdefault. }
  destruct (raise_for_status response) as [e|].
  { intros H. injection H as <-. right. apply Hdefault. }
  destruct (_extract_models_from_html json_loads order (text response))
    as [e|page] eqn:Hx.
  { intros H. injection H as <-. right. apply Hdefault. }
  cbn [fst]. intros H. injection H as <-. unfold chosen.
  destruct page as [|m page]; cbn [is_empty].
  - destruct (settings_models (the_session new_session st)) as [|m ms] eqn:Hs;
      cbn [is_empty].
    + right. apply Hdefault.
    + left. exists response. auto.
  - right.
    destruct (extract_inv _ _ _ _ Hx) as (pass_a & found & Ha & Hb & ->).
    apply Forall_app. split.
    + pose proof (next_data_models_validated _ _ _ Ha) as Hv.
      rewrite Forall_forall in Hv |- *. intros x Hin. split.
      * apply validated_length, Hv, Hin.
      * right. exists response, pass_a. auto.
    + pose proof (scan_patterns_valid _ _ _ _ Hb (Forall_nil _)) as Hv.
      unfold all_valid in Hv. rewrite Forall_forall in Hv.
      apply Forall_map. rewrite Forall_forall. intros i Hin.
      apply filter_In in Hin as [Hin _].
      apply (proj1 (set_iter_in _ _ _)) in Hin.
      assert (Hl : 3 <= String.length i).
      { apply (validated_length (_create_model_info i)), Hv, Hin. }
      split; [exact Hl|]. left. apply create_model_info_named, Hl.
Qed.

End FetcherFacts.

Lemma fallback_when_nothing_found_witness :
  fst (fetch_models no_json insertion_order (fun _ => blank_site)
                    (fresh "token"))
  = inr _get_default_models.
Proof.
  apply (fallback_when_nothing_found no_json insertion_order
           (fun _ => blank_site) (fresh "token") blank_page).
  - reflexivity.
  - reflexivity.
  - vm_compute. reflexivity.
  - intros p [<-|[<-|[<-|[]]]]; vm_compute; reflexivity.
  - vm_compute. reflexivity.
Defined.

Lemma fetch_models_never_raises_witness :
  exists models st',
    fetch_models no_json insertion_order (fun _ => offline_site) (fresh "token")
    = (inr models, st')
    /\ models = _get_default_models
    /\ stderr st' = ["Error fetching models: Failed to connect"].
Proof.
  destruct (fetch_models_never_raises no_json insertion_order
              (fun _ => offline_site) (fresh "token"))
    as (models & st' & Hrun & Hraised & _).
  exists models, st'. split; [exact Hrun|].
  destruct (Hraised (Exn RequestError "Failed to connect")) as (Hm & Herr & _).
  - left. reflexivity.
  - split; [exact Hm|exact Herr].
Defined.

(** C5 as stated fails: when the embedded data defines the same identifier
    at two nodes, both passes produce it and the output has two entries
    with it. *)
Lemma repeated_definition_kept_twice :
  next_data_models same_model_twice_loads same_model_twice_page
  = inr [bare_gpt51_model; bare_gpt51_model]
  /\ scan_patterns model_patterns same_model_twice_page [] = inr ["gpt51"; "gpt51"]
  /\ _extract_models_from_html same_model_twice_loads insertion_order
                               same_model_twice_page
     = inr [bare_gpt51_model; bare_gpt51_model]
  /\ ~ deduplicated [bare_gpt51_model; bare_gpt51_model]
  /\ List.length (with_identifier "gpt51" [bare_gpt51_model; bare_gpt51_model])
     <> 1.
Proof.
  repeat split; try (vm_compute; reflexivity).
  - unfold deduplicated. cbn. intros H. inversion H as [|x l Hin _]; subst.
    apply Hin. left. reflexivity.
  - cbn. discriminate.
Qed.

Lemma extract_merge_witness :
  exists pass_a found new_ids,
    next_data_models one_model_loads one_model_page = inr pass_a
    /\ scan_patterns model_patterns one_model_page [] = inr found
    /\ [gpt51_model; _create_model_info "claude45sonnet"]
       = (pass_a ++ map _create_model_info new_ids)%list
    /\ NoDup new_ids
    /\ (forall i, In i new_ids <->
                  In i found /\ ~ In i (map identifier pass_a))
    /\ (forall i, In i (map identifier pass_a) ->
                  with_identifier i [gpt51_model; _create_model_info "claude45sonnet"]
                  = with_identifier i pass_a).
Proof.
  apply (extract_merge one_model_loads insertion_order one_model_page).
  vm_compute. reflexivity.
Defined.

(** C4 as stated fails: the entries built from the settings endpoints are
    not validated.  Here the first has an identifier of length 2 and the
    second an empty name. *)
Lemma settings_entries_not_validated :
  exists m1 m2,
    fst (fetch_models no_json insertion_order
                      (fun _ => site_with_session_data short_models)
                      (fresh "token"))
    = inr [m1; m2]
    /\ identifier m1 = "o1"
    /\ ~ 3 <= String.length (identifier m1)
    /\ name m2 = PyStr ""
    /\ ~ named m2.
Proof.
  do 2 eexists. split; [vm_compute; reflexivity|].
  split; [reflexivity|]. split; [cbn; lia|]. split; [reflexivity|].
  intros (s & E & N). cbn in E. injection E as <-. apply N. reflexivity.
Qed.

Lemma returned_models_validated_witness :
  (exists response,
      get (the_session (fun _ => site_serving one_model_page) (fresh "token"))
          API_BASE_URL = inr response
      /\ _extract_models_from_html one_model_loads insertion_order (text response)
         = inr []
      /\ [gpt51_model; _create_model_info "claude45sonnet"]
         = settings_models
             (the_session (fun _ => site_serving one_model_page) (fresh "token")))
  \/ Forall (fun m =>
               3 <= String.length (identifier m)
               /\ (named m
                   \/ exists response pass_a,
                       get (the_session (fun _ => site_serving one_model_page)
                                        (fresh "token"))
                           API_BASE_URL = inr response
                       /\ next_data_models one_model_loads (text response)
                          = inr pass_a
                       /\ In m pass_a))
            [gpt51_model; _create_model_info "claude45sonnet"].
Proof.
  apply (returned_models_validated one_model_loads insertion_order
           (fun _ => site_serving one_model_page) (fresh "token")).
  vm_compute. reflexivity.
Defined.

(** ** The settings endpoints *)

Lemma settings_items_collect l :
  Forall Spec.string_identifier l ->
  forall models,
    for_each l settings_item models
    = (inr tt, (models ++ flat_map Spec.listed_models l)%list).
Proof.
  induction 1 as [|m l Hm _ IH]; intros models.
  - cbn. rewrite app_nil_r. reflexivity.
  - change (for_each (m :: l) settings_item)
      with (settings_item m ;; for_each l settings_item).
    cbn [bind Monad_M flat_map].
    destruct m as [|b|z|s|elements|fields]; cbn [settings_item ret Monad_M];
      try (rewrite IH; reflexivity).
    + cbn [append modify Spec.listed_models]. rewrite IH, <- app_assoc.
      reflexivity.
    + cbn [Spec.string_identifier Spec.listed_models] in *.
      destruct (Py.lookup "identifier" fields) as [[|b|z|id|elements|fs]|] eqn:E;
        try contradiction; cbn [ret Monad_M]; [|rewrite IH; reflexivity].
      cbn [append modify]. rewrite IH, <- app_assoc.
      unfold Spec.record_with_defaults, Py.get, default_is_pro,
        default_supports_reasoning. reflexivity.
Qed.





(** C1 as stated fails: an exception raised while the embedded script is
    parsed, or while a settings endpoint is requested, is absorbed where it
    is raised.  Nothing is written to the error stream, and the list
    returned is the one the rest of the page, or the other endpoint, gave:
    not the static catalog. *)
Lemma absorbed_exceptions_not_reported :
  (Re.re_search dotall next_data_pattern truncated_page = Some (Some "{")
   /\ no_json "{" = inl (Exn JSONDecodeError "Expecting value")
   /\ fst (fetch_models no_json insertion_order
                        (fun _ => site_serving truncated_page) (fresh "token"))
      = inr [_create_model_info "claude45sonnet"]
   /\ stderr (snd (fetch_models no_json insertion_order
                                (fun _ => site_serving truncated_page)
                                (fresh "token")))
      = [])
  /\ (get (site_with_session_data one_listed_model)
          (API_BASE_URL ++ "/api/user/settings")
      = inl (Exn RequestError "Failed to connect")
      /\ fst (fetch_models no_json insertion_order
                           (fun _ => site_with_session_data one_listed_model)
                           (fresh "token"))
         = inr [_create_model_info "gpt51"]
      /\ stderr (snd (fetch_models no_json insertion_order
                                   (fun _ => site_with_session_data
                                               one_listed_model)
                                   (fresh "token")))
         = [])
  /\ [_create_model_info "claude45sonnet"] <> _get_default_models
  /\ [_create_model_info "gpt51"] <> _get_default_models.
Proof.
  repeat split; try (vm_compute; reflexivity);
    intros H; apply (f_equal (@List.length ModelInfo)) in H; discriminate H.
Qed.

(** * Further properties of the code *)

(** ** Validation of values that are not strings *)

(** X7.  On a value that is not a string, the validation never accepts: it
    raises [TypeError] for [True], a non-zero number and a list or dict of
    three or more items, and it rejects every other value. *)
Theorem valid_model_id_non_string v :
  (forall s, v <> PyStr s) ->
  if match v with
     | PyBool b => b
     | PyNum z => negb (z =? 0)%Z
     | PyList l => 3 <=? List.length l
     | PyDict d => 3 <=? List.length d
     | _ => false
     end
  then exists e, _is_valid_model_id v = inl e /\ exn_cls e = TypeError
  else _is_valid_model_id v = inr false.
Proof.
  intros Hv. destruct v as [|b|z|s|l|d].
  - reflexivity.
  - destruct b; [eexists; split; reflexivity|reflexivity].
  - unfold _is_valid_model_id. cbn [Py.truthy].
    destruct (z =? 0)%Z; cbn [negb]; [reflexivity|].
    eexists; split; reflexivity.
  - exfalso. apply (Hv s). reflexivity.
  - destruct l as [|a [|b [|c l]]]; try reflexivity.
    eexists; split; reflexivity.
  - destruct d as [|a [|b [|c d]]]; try reflexivity.
    eexists; split; reflexivity.
Qed.

Lemma valid_model_id_non_string_witness :
  exists e, _is_valid_model_id (PyNum 51) = inl e /\ exn_cls e = TypeError.
Proof.
  apply (valid_model_id_non_string (PyNum 51)). intros s. discriminate.
Defined.

Lemma valid_true_is_str v :
  _is_valid_model_id v = inr true -> exists s, v = PyStr s.
Proof.
  intros H. destruct v as [|b|z|s|l|d]; try (eexists; reflexivity); exfalso.
  - discriminate.
  - destruct b; discriminate.
  - unfold _is_valid_model_id in H. cbn [Py.truthy] in H.
    destruct (z =? 0)%Z; discriminate.
  - destruct l as [|a [|b [|c l]]]; discriminate.
  - destruct d as [|a [|b [|c d]]]; discriminate.
Qed.

(** ** The walk, node by node *)

Lemma extends_refl l : extends l l.
Proof. exists []. symmetry. apply app_nil_r. Qed.

Lemma extends_trans l1 l2 l3 : extends l1 l2 -> extends l2 l3 -> extends l1 l3.
Proof.
  intros [a ->] [b ->]. exists (a ++ b)%list. symmetry. apply app_assoc.
Qed.

Lemma extends_in l l' m : extends l l' -> In m l -> In m l'.
Proof. intros [a ->] H. apply in_or_app. left. exact H. Qed.

Lemma grows_bind {A B} (c : M (list ModelInfo) A) (f : A -> M (list ModelInfo) B) :
  grows c -> (forall a, grows (f a)) -> grows (bind c f).
Proof.
  intros Hc Hf l. cbn [bind Monad_M]. specialize (Hc l).
  destruct (c l) as [[e|a] l1]; cbn [snd] in *; [exact Hc|].
  eapply extends_trans; [exact Hc|apply Hf].
Qed.

Lemma grows_ret {A} (a : A) : grows (ret a).
Proof. intros l. apply extends_refl. Qed.

Lemma grows_for_each {A} (body : A -> M (list ModelInfo) unit) xs :
  (forall x, grows (body x)) -> grows (for_each xs body).
Proof.
  intros Hbody. induction xs as [|x xs IH]; [apply grows_ret|].
  change (for_each (x :: xs) body) with (body x ;; for_each xs body).
  apply grows_bind; [apply Hbody|intros _; exact IH].
Qed.

(** The three outcomes of the test on a dict-valued field: nothing, one
    entry appended, or the exception of the validation. *)
Lemma model_definition_cases fields models :
  model_definition fields models = (inr tt, models)
  \/ (exists s,
         node_id fields = PyStr s
         /\ _is_valid_model_id (PyStr s) = inr true
         /\ model_definition fields models
            = (inr tt, (models ++ [node_model fields s])%list))
  \/ (exists e,
         Py.truthy (node_id fields) = true
         /\ _is_valid_model_id (node_id fields) = inl e
         /\ model_definition fields models = (inl e, models)).
Proof.
  unfold model_definition. fold (node_id fields).
  destruct (Py.has_key "identifier" fields || Py.has_key "modelId" fields);
    [|left; reflexivity].
  cbv zeta.
  destruct (Py.truthy (node_id fields)) eqn:Ht; [|left; reflexivity].
  cbn [bind Monad_M lift].
  destruct (_is_valid_model_id (node_id fields)) as [e|[|]] eqn:Hv.
  - right. right. exists e. auto.
  - right. left. destruct (valid_true_is_str _ Hv) as [s Hs].
    exists s. rewrite Hs in *. auto.
  - left. reflexivity.
Qed.

Lemma grows_model_definition fields : grows (model_definition fields).
Proof.
  intros l.
  destruct (model_definition_cases fields l)
    as [H|[(s & _ & _ & H)|(e & _ & _ & H)]]; rewrite H; cbn [snd].
  - apply extends_refl.
  - eexists. reflexivity.
  - apply extends_refl.
Qed.

Lemma grows_search_dict n : forall d depth,
  (11 - depth <= Z.of_nat n)%Z -> grows (search_dict d depth).
Proof.
  induction n as [|n IH]; intros d depth Hn.
  - destruct d; cbn [search_dict];
      destruct (Z.gtb_spec depth 10); try apply grows_ret; lia.
  - destruct d; cbn [search_dict];
      destruct (Z.gtb_spec depth 10); try apply grows_ret;
      try (intros ms; apply extends_refl).
    apply grows_for_each. intros [key value].
    destruct value as [|b|z|s|elements|fields]; try apply grows_ret.
    + apply grows_for_each. intros item.
      destruct item; try apply grows_ret. apply IH. lia.
    + apply grows_bind; [apply grows_model_definition|].
      intros _. apply IH. lia.
Qed.

(** X10.  Whatever the walk does, and even when it ends with an exception,
    it only appends: the list it was given is a prefix of the list it
    leaves. *)
Theorem search_dict_only_appends d depth models :
  exists extra,
    snd (search_dict d depth models) = (models ++ extra)%list.
Proof.
  apply (grows_search_dict (Z.to_nat (11 - depth)) d depth). lia.
Qed.

Lemma bind_success {L A B} (c : M L A) (f : A -> M L B) l b l' :
  bind c f l = (inr b, l') ->
  exists a lm, c l = (inr a, lm) /\ f a lm = (inr b, l').
Proof.
  cbn [bind Monad_M]. destruct (c l) as [[e|a] lm]; [discriminate|].
  intros H. exists a, lm. auto.
Qed.

Lemma for_each_success {A} (body : A -> M (list ModelInfo) unit) xs :
  (forall x, grows (body x)) ->
  forall l l', for_each xs body l = (inr tt, l') ->
  forall x, In x xs ->
  exists l1 l2, body x l1 = (inr tt, l2) /\ extends l2 l'.
Proof.
  intros Hbody. induction xs as [|a xs IH]; intros l l' H x Hx; [destruct Hx|].
  change (for_each (a :: xs) body) with (body a ;; for_each xs body) in H.
  apply bind_success in H as ([] & la & Ha & Hrest).
  destruct Hx as [<-|Hx].
  - exists l, la. split; [exact Ha|].
    pose proof (grows_for_each body xs Hbody la) as G.
    rewrite Hrest in G. exact G.
  - apply (IH la l' Hrest x Hx).
Qed.

Lemma grows_visit_value depth (kv : string * pyval) :
  grows (let '(key, value) := kv in
         match value with
         | PyDict fields =>
             model_definition fields ;; search_dict value (depth + 1)%Z
         | PyList l =>
             for_each l
               (fun item =>
                  match item with
                  | PyDict _ => search_dict item (depth + 1)%Z
                  | _ => ret tt
                  end)
         | _ => ret tt
         end).
Proof.
  destruct kv as [key value].
  destruct value as [|b|z|s|elements|fields]; try apply grows_ret.
  - apply grows_for_each. intros item. destruct item; try apply grows_ret.
    apply (grows_search_dict (Z.to_nat (11 - (depth + 1)))). lia.
  - apply grows_bind; [apply grows_model_definition|].
    intros _. apply (grows_search_dict (Z.to_nat (11 - (depth + 1)))). lia.
Qed.

Lemma grows_visit_item depth (item : pyval) :
  grows (match item with
         | PyDict _ => search_dict item (depth + 1)%Z
         | _ => ret tt
         end).
Proof.
  destruct item; try apply grows_ret.
  apply (grows_search_dict (Z.to_nat (11 - (depth + 1)))). lia.
Qed.

(** In a walk that ends without exception, the call on a mapping within
    the depth bound runs the test on each of its dict-valued fields and then
    the call on that field, both without exception. *)
Lemma field_call items depth l1 l2 key fields :
  search_dict (PyDict items) depth l1 = (inr tt, l2) ->
  (depth <= 10)%Z ->
  In (key, PyDict fields) items ->
  exists la lm lb,
    model_definition fields la = (inr tt, lm)
    /\ search_dict (PyDict fields) (depth + 1)%Z lm = (inr tt, lb)
    /\ extends lb l2.
Proof.
  intros H Hd Hin. cbn [search_dict] in H.
  destruct (Z.gtb_spec depth 10); [lia|].
  destruct (for_each_success _ _ (grows_visit_value depth) _ _ H _ Hin)
    as (la & lb & Hbody & Hext).
  apply bind_success in Hbody as ([] & lm & Hm & Hs).
  exists la, lm, lb. auto.
Qed.

Lemma element_call items depth l1 l2 key elements fields :
  search_dict (PyDict items) depth l1 = (inr tt, l2) ->
  (depth <= 10)%Z ->
  In (key, PyList elements) items ->
  In (PyDict fields) elements ->
  exists la lb,
    search_dict (PyDict fields) (depth + 1)%Z la = (inr tt, lb)
    /\ extends lb l2.
Proof.
  intros H Hd Hin Hel. cbn [search_dict] in H.
  destruct (Z.gtb_spec depth 10); [lia|].
  destruct (for_each_success _ _ (grows_visit_value depth) _ _ H _ Hin)
    as (la & lb & Hbody & Hext).
  destruct (for_each_success _ _ (grows_visit_item depth) _ _ Hbody _ Hel)
    as (lc & ld & Hitem & Hext').
  exists lc, ld. split; [exact Hitem|].
  eapply extends_trans; eassumption.
Qed.

Lemma visited_call root final :
  search_dict root 0%Z [] = (inr tt, final) ->
  forall d depth, visited root d depth ->
  exists l1 l2, search_dict d depth l1 = (inr tt, l2) /\ extends l2 final.
Proof.
  intros Hrun d depth Hv. induction Hv as
      [|items depth key fields _ IH Hd Hin
       |items depth key elements fields _ IH Hd Hin Hel].
  - exists [], final. split; [exact Hrun|apply extends_refl].
  - destruct IH as (l1 & l2 & Hcall & Hext).
    destruct (field_call _ _ _ _ _ _ Hcall Hd Hin)
      as (la & lm & lb & _ & Hs & Hext').
    exists lm, lb. split; [exact Hs|]. eapply extends_trans; eassumption.
  - destruct IH as (l1 & l2 & Hcall & Hext).
    destruct (element_call _ _ _ _ _ _ _ Hcall Hd Hin Hel)
      as (la & lb & Hs & Hext').
    exists la, lb. split; [exact Hs|]. eapply extends_trans; eassumption.
Qed.

Lemma tested_call root final fields :
  search_dict root 0%Z [] = (inr tt, final) ->
  tested root fields ->
  exists la lm, model_definition fields la = (inr tt, lm) /\ extends lm final.
Proof.
  intros Hrun (items & depth & key & Hv & Hd & Hin).
  destruct (visited_call _ _ Hrun _ _ Hv) as (l1 & l2 & Hcall & Hext).
  destruct (field_call _ _ _ _ _ _ Hcall Hd Hin)
    as (la & lm & lb & Hm & Hs & Hext').
  exists la, lm. split; [exact Hm|].
  pose proof (grows_search_dict (Z.to_nat (11 - (depth + 1))) (PyDict fields)
                (depth + 1)%Z ltac:(lia) lm) as G.
  rewrite Hs in G. cbn [snd] in G.
  eapply extends_trans; [exact G|]. eapply extends_trans; eassumption.
Qed.

Lemma parse_next_data_run root models :
  _parse_next_data root = inr models ->
  search_dict root 0%Z [] = (inr tt, models).
Proof.
  unfold _parse_next_data, run_local.
  destruct (search_dict root 0%Z []) as [[e|[]] l]; [discriminate|].
  intros H. injection H as <-. reflexivity.
Qed.

Lemma model_definition_raises fields models e :
  Py.truthy (node_id fields) = true ->
  _is_valid_model_id (node_id fields) = inl e ->
  model_definition fields models = (inl e, models).
Proof.
  intros Ht Hv. unfold model_definition. fold (node_id fields).
  destruct (Py.has_key "identifier" fields || Py.has_key "modelId" fields) eqn:Hk.
  - cbv zeta. rewrite Ht. cbn [bind Monad_M lift]. rewrite Hv. reflexivity.
  - exfalso. apply orb_false_iff in Hk as [H1 H2].
    unfold node_id, Py.or_, Py.get, Py.has_key in *.
    destruct (Py.lookup "identifier" fields); [discriminate|].
    destruct (Py.lookup "modelId" fields); [discriminate|].
    discriminate.
Qed.

Lemma search_dict_from_tested root n : forall d depth models,
  (11 - depth <= Z.of_nat n)%Z ->
  visited root d depth ->
  Forall (from_tested root) models ->
  Forall (from_tested root) (snd (search_dict d depth models)).
Proof.
  induction n as [|n IH]; intros d depth models Hn Hv H.
  - destruct d; cbn [search_dict];
      destruct (Z.gtb_spec depth 10); try exact H; lia.
  - destruct d as [|b|z|s|l|items]; cbn [search_dict];
      destruct (Z.gtb_spec depth 10); try exact H.
    apply for_each_preserves; [|exact H].
    intros [key value] ms Hin Hms.
    destruct value as [|b|z|s|elements|fields]; try exact Hms.
    + apply for_each_preserves; [|exact Hms].
      intros item ms0 Hel Hms0. destruct item as [|b|z|s|l|fields];
        try exact Hms0.
      apply IH; [lia| |exact Hms0].
      eapply visited_element; eassumption.
    + apply bind_preserves; [exact Hms| |].
      * intros ms0 Hms0.
        destruct (model_definition_cases fields ms0)
          as [E|[(s & Hid & Hvalid & E)|(e & _ & _ & E)]];
          rewrite E; cbn [snd]; try exact Hms0.
        apply Forall_app. split; [exact Hms0|].
        constructor; [|constructor].
        exists fields, s. repeat split; try assumption.
        exists items, depth, key. auto.
      * intros _ ms0 Hms0. apply IH; [lia| |exact Hms0].
        eapply visited_field; eassumption.
Qed.

(** X1.  What the embedded-JSON pass returns, exactly: an entry is in the
    result if and only if it is the entry of a dict-valued field of a mapping
    the walk goes through within the depth bound, whose first true value among
    [identifier] and [modelId] is a string that passes the validation. *)
Theorem parse_next_data_exact root models :
  _parse_next_data root = inr models ->
  forall m, In m models <-> from_tested root m.
Proof.
  intros Hparse m. pose proof (parse_next_data_run _ _ Hparse) as Hrun. split.
  - pose proof (search_dict_from_tested root 11 root 0%Z [] ltac:(lia)
                  (visited_root root) (Forall_nil _)) as Hall.
    rewrite Hrun in Hall. cbn [snd] in Hall.
    rewrite Forall_forall in Hall. apply Hall.
  - intros (fields & s & Ht & Hid & Hvalid & ->).
    destruct (tested_call _ _ _ Hrun Ht) as (la & lm & Hm & Hext).
    unfold node_id in Hid.
    rewrite (model_definition_synthesizes _ _ _ Hid Hvalid) in Hm.
    injection Hm as <-. eapply extends_in; [exact Hext|].
    apply in_or_app. right. left. reflexivity.
Qed.

Lemma parse_next_data_exact_witness :
  In gpt51_model [gpt51_model] <-> from_tested model_in_field gpt51_model.
Proof.
  apply (parse_next_data_exact model_in_field [gpt51_model]).
  vm_compute. reflexivity.
Defined.

(** X2.  A tested mapping whose identifier value is true but makes the
    validation raise (a number, [True], a list or dict of three or more
    items) makes the whole embedded-JSON pass raise: no entry of the embedded
    data is returned. *)
Theorem ill_typed_identifier_aborts root fields e :
  tested root fields ->
  Py.truthy (node_id fields) = true ->
  _is_valid_model_id (node_id fields) = inl e ->
  exists e', _parse_next_data root = inl e'.
Proof.
  intros Ht Htrue Hv.
  destruct (_parse_next_data root) as [e'|models] eqn:Hparse;
    [exists e'; reflexivity|].
  exfalso. pose proof (parse_next_data_run _ _ Hparse) as Hrun.
  destruct (tested_call _ _ _ Hrun Ht) as (la & lm & Hm & _).
  rewrite (model_definition_raises _ _ _ Htrue Hv) in Hm. discriminate.
Qed.

Lemma ill_typed_identifier_aborts_witness :
  exists e', _parse_next_data numeric_identifier_data = inl e'.
Proof.
  apply (ill_typed_identifier_aborts numeric_identifier_data
           [("identifier", PyNum 12345)]
           (Exn TypeError "object has no len()")).
  - exists [("user", PyDict [("identifier", PyNum 12345)]);
            ("model", PyDict gpt51_fields)], 0%Z, "user".
    split; [apply visited_root|]. split; [lia|]. left. reflexivity.
  - reflexivity.
  - reflexivity.
Defined.

(** ** The extractor, when the embedded script is missing or unusable *)

Lemma scan_match_returns found g : exists found', scan_match found g = inr found'.
Proof.
  unfold scan_match. destruct g as [s|]; cbn [group1].
  - rewrite is_valid_str. eexists. reflexivity.
  - eexists. reflexivity.
Qed.

Lemma scan_matches_returns ms : forall found,
  exists found', scan_matches ms found = inr found'.
Proof.
  induction ms as [|g ms IH]; intros found; [eexists; reflexivity|].
  cbn [scan_matches bind Monad_result].
  destruct (scan_match_returns found g) as [f1 ->]. apply IH.
Qed.

(** The pattern scan never raises. *)
Lemma scan_patterns_returns ps html : forall found,
  exists found', scan_patterns ps html found = inr found'.
Proof.
  induction ps as [|p ps IH]; intros found; [eexists; reflexivity|].
  cbn [scan_patterns bind Monad_result].
  destruct (scan_matches_returns (Re.re_finditer ignorecase p html) found)
    as [f1 ->].
  apply IH.
Qed.

Lemma filter_all {A} (f : A -> bool) l :
  (forall x, f x = true) -> filter f l = l.
Proof.
  intros H. induction l as [|a l IH]; [reflexivity|].
  cbn [filter]. rewrite H, IH. reflexivity.
Qed.

Section ExtractorEdges.

Variable json_loads : string -> result pyval.
Variable order : SetOrder.
Variable new_session : string -> Session.

(** X3.  When the page has no [__NEXT_DATA__] script, or has one that
    [json.loads] rejects with a [JSONDecodeError], the extraction does not
    raise: it returns one inferred entry for each distinct valid identifier
    of the pattern scan. *)
Theorem extract_without_embedded_data html :
  (Re.re_search dotall next_data_pattern html = None
   \/ exists txt e,
       Re.re_search dotall next_data_pattern html = Some (Some txt)
       /\ json_loads txt = inl e
       /\ is_JSONDecodeError e = true) ->
  exists found,
    scan_patterns model_patterns html [] = inr found
    /\ _extract_models_from_html json_loads order html
       = inr (map _create_model_info (set_iter order found)).
Proof.
  intros H.
  assert (Ha : next_data_models json_loads html = inr []).
  { destruct H as [H|(txt & e & Hs & Hl & He)].
    - unfold next_data_models. rewrite H. reflexivity.
    - apply (json_decode_error_absorbed _ _ _ _ Hs Hl He). }
  destruct (scan_patterns_returns model_patterns html []) as [found Hb].
  exists found. split; [exact Hb|].
  unfold _extract_models_from_html. rewrite Ha, Hb.
  cbn [bind ret Monad_result map app Str.mem existsb negb].
  rewrite filter_all by reflexivity. reflexivity.
Qed.

(** The walk raises [AttributeError] on anything that is not a mapping. *)
Lemma parse_next_data_not_a_mapping data :
  (forall items, data <> PyDict items) ->
  exists e, _parse_next_data data = inl e /\ exn_cls e = AttributeError.
Proof.
  intros H. destruct data; try (eexists; split; reflexivity).
  exfalso. eapply H. reflexivity.
Qed.

(** X4.  When the embedded script parses to a value that is not a mapping
    (an array, a string, a number, null), the walk raises [AttributeError],
    nothing absorbs it before the handler of [fetch_models], and the call
    returns the static catalog with one line on the error stream, whatever
    the patterns would have found on the page. *)
Theorem non_mapping_embedded_data_falls_back st response txt data :
  get (the_session new_session st) API_BASE_URL = inr response ->
  raise_for_status response = None ->
  Re.re_search dotall next_data_pattern (text response) = Some (Some txt) ->
  json_loads txt = inr data ->
  (forall items, data <> PyDict items) ->
  exists e,
    exn_cls e = AttributeError
    /\ _extract_models_from_html json_loads order (text response) = inl e
    /\ fetch_models json_loads order new_session st
       = (inr _get_default_models,
          after_error e (session_opened new_session st)).
Proof.
  intros Hget Hstatus Hs Hl Hd.
  destruct (parse_next_data_not_a_mapping data Hd) as (e & Hp & He).
  assert (Hx : _extract_models_from_html json_loads order (text response)
               = inl e).
  { unfold _extract_models_from_html, next_data_models. rewrite Hs.
    cbn [catch MonadExn_result bind Monad_result]. rewrite Hl, Hp.
    unfold is_JSONDecodeError. rewrite He. reflexivity. }
  exists e. split; [exact He|]. split; [exact Hx|].
  rewrite fetch_models_run. cbv zeta. rewrite Hget, Hstatus, Hx. reflexivity.
Qed.

End ExtractorEdges.

Lemma extract_without_embedded_data_witness :
  exists found,
    scan_patterns model_patterns truncated_page [] = inr found
    /\ _extract_models_from_html no_json insertion_order truncated_page
       = inr (map _create_model_info (set_iter insertion_order found)).
Proof.
  apply (extract_without_embedded_data no_json insertion_order truncated_page).
  right. exists "{", (Exn JSONDecodeError "Expecting value").
  split; [vm_compute; reflexivity|]. split; reflexivity.
Defined.

Lemma non_mapping_embedded_data_falls_back_witness :
  exists e,
    exn_cls e = AttributeError
    /\ _extract_models_from_html array_loads insertion_order
                                 (text (page_response array_page)) = inl e
    /\ fetch_models array_loads insertion_order
                    (fun _ => site_serving array_page) (fresh "token")
       = (inr _get_default_models,
          after_error e
            (session_opened (fun _ => site_serving array_page) (fresh "token"))).
Proof.
  apply (non_mapping_embedded_data_falls_back array_loads insertion_order
           (fun _ => site_serving array_page) (fresh "token")
           (page_response array_page) "[]" (PyList [])).
  - reflexivity.
  - reflexivity.
  - vm_compute. reflexivity.
  - reflexivity.
  - intros items. discriminate.
Defined.

(** ** The fetcher as an object *)

Lemma find_model_spec models model_id :
  match find_model models model_id with
  | Some m =>
      exists before after,
        models = (before ++ m :: after)%list
        /\ identifier m = model_id
        /\ Forall (fun x => identifier x <> model_id) before
  | None => Forall (fun x => identifier x <> model_id) models
  end.
Proof.
  induction models as [|x models IH]; [constructor|].
  cbn [find_model]. destruct (String.eqb_spec (identifier x) model_id) as [E|N].
  - exists [], models. repeat split; [exact E|constructor].
  - destruct (find_model models model_id) as [m|].
    + destruct IH as (before & after & -> & Hid & Hb).
      exists (x :: before), after. repeat split; [exact Hid|].
      constructor; assumption.
    + constructor; assumption.
Qed.

Section ObjectFacts.

Variable json_loads : string -> result pyval.
Variable order : SetOrder.
Variable new_session : string -> Session.

(** The list [fetch_models] returns only depends on the session in use. *)
Lemma fetch_models_by_session st1 st2 :
  the_session new_session st1 = the_session new_session st2 ->
  fst (fetch_models json_loads order new_session st1)
  = fst (fetch_models json_loads order new_session st2).
Proof.
  intros E. rewrite !fetch_models_run. cbv zeta. rewrite E.
  destruct (get (the_session new_session st2) API_BASE_URL) as [e|response];
    [reflexivity|].
  destruct (raise_for_status response); [reflexivity|].
  destruct (_extract_models_from_html json_loads order (text response));
    reflexivity.
Qed.

Lemma fetch_models_state st :
  let st' := snd (fetch_models json_loads order new_session st) in
  fst (fetch_models json_loads order new_session st) = inr (_models st')
  /\ session_token st' = session_token st
  /\ _session st' = Some (the_session new_session st).
Proof.
  rewrite fetch_models_run. cbv zeta.
  assert (Ho : session_token (session_opened new_session st) = session_token st
               /\ _session (session_opened new_session st)
                  = Some (the_session new_session st)).
  { unfold session_opened, the_session.
    destruct (_session st) eqn:E; cbn; rewrite ?E; auto. }
  destruct Ho as [Ho1 Ho2].
  destruct (get (the_session new_session st) API_BASE_URL) as [e|response];
    [cbn; auto|].
  destruct (raise_for_status response); [cbn; auto|].
  destruct (_extract_models_from_html json_loads order (text response));
    cbn; auto.
Qed.

(** X5.  [fetch_models] stores in [self._models] the very list it returns,
    keeps the token, and leaves the session it used memoized; a second call
    builds no new session and, the site answering as before, returns the
    same list. *)
Theorem fetch_models_cached_and_repeatable st :
  let first := fetch_models json_loads order new_session st in
  let second := fetch_models json_loads order new_session (snd first) in
  fst first = inr (_models (snd first))
  /\ session_token (snd first) = session_token st
  /\ _session (snd first) = Some (the_session new_session st)
  /\ _session (snd second) = _session (snd first)
  /\ fst second = fst first.
Proof.
  cbv zeta.
  destruct (fetch_models_state st) as (H1 & H2 & H3).
  assert (Hs : the_session new_session
                 (snd (fetch_models json_loads order new_session st))
               = the_session new_session st).
  { unfold the_session at 1. rewrite H3. reflexivity. }
  split; [exact H1|]. split; [exact H2|]. split; [exact H3|]. split.
  - destruct (fetch_models_state
                (snd (fetch_models json_loads order new_session st)))
      as (_ & _ & H3').
    cbv zeta in H3'. rewrite H3', Hs, H3. reflexivity.
  - apply fetch_models_by_session, Hs.
Qed.

Lemma fetch_models_returns st :
  exists models st',
    fetch_models json_loads order new_session st = (inr models, st')
    /\ _models st' = models /\ models <> [].
Proof.
  pose proof (fetch_models_state st) as (H1 & _ & _). cbv zeta in H1.
  rewrite fetch_models_run in *. cbv zeta in *.
  destruct (get (the_session new_session st) API_BASE_URL) as [e|response].
  { do 2 eexists. split; [reflexivity|]. split; [reflexivity|discriminate]. }
  destruct (raise_for_status response).
  { do 2 eexists. split; [reflexivity|]. split; [reflexivity|discriminate]. }
  destruct (_extract_models_from_html json_loads order (text response)).
  { do 2 eexists. split; [reflexivity|]. split; [reflexivity|discriminate]. }
  do 2 eexists. split; [reflexivity|]. split; [reflexivity|].
  apply chosen_nonempty.
Qed.

Lemma get_model_by_id_run model_id st :
  get_model_by_id json_loads order new_session model_id st
  = if is_empty (_models st)
    then let st' := snd (fetch_models json_loads order new_session st) in
         (inr (find_model (_models st') model_id), st')
    else (inr (find_model (_models st) model_id), st).
Proof.
  unfold get_model_by_id. cbn [bind Monad_M get_state ret].
  destruct (is_empty (_models st)); [|reflexivity].
  cbn [bind Monad_M ret].
  destruct (fetch_models_returns st) as (models & st' & -> & _ & _).
  reflexivity.
Qed.

(** X6.  [get_model_by_id] never raises.  It answers from the cache: with
    the first entry of [self._models] whose identifier is the one asked for,
    or with [None] when no entry has it.  The cache is fetched only when it
    is empty, is never empty afterwards, and a fetcher whose cache is not
    empty is left untouched. *)
Theorem get_model_by_id_spec model_id st :
  exists answer st',
    get_model_by_id json_loads order new_session model_id st = (inr answer, st')
    /\ _models st' <> []
    /\ (_models st <> [] -> st' = st)
    /\ match answer with
       | Some m =>
           exists before after,
             _models st' = (before ++ m :: after)%list
             /\ identifier m = model_id
             /\ Forall (fun x => identifier x <> model_id) before
       | None => Forall (fun x => identifier x <> model_id) (_models st')
       end.
Proof.
  rewrite get_model_by_id_run.
  destruct (_models st) as [|m0 ms] eqn:E; cbn [is_empty].
  - destruct (fetch_models_returns st) as (models & st' & Hrun & Hm & Hne).
    rewrite Hrun. cbn [snd]. do 2 eexists. split; [reflexivity|].
    split; [rewrite Hm; exact Hne|]. split; [intros H; congruence|].
    apply find_model_spec.
  - do 2 eexists. split; [reflexivity|].
    split; [rewrite E; discriminate|]. split; [reflexivity|].
    rewrite <- E. apply find_model_spec.
Qed.

(** X8.  On a fetcher that has fetched nothing yet, when the request for
    the page raises, [get_model_by_id] answers with the catalog entry for
    each of the 13 catalog identifiers, and with [None] for any other
    identifier. *)
Theorem get_model_by_id_offline model_id st e :
  _models st = [] ->
  get (the_session new_session st) API_BASE_URL = inl e ->
  fst (get_model_by_id json_loads order new_session model_id st)
  = inr (find_model _get_default_models model_id)
  /\ (In model_id default_identifiers ->
      exists m, find_model _get_default_models model_id = Some m
                /\ In m _get_default_models /\ identifier m = model_id)
  /\ (~ In model_id default_identifiers ->
      find_model _get_default_models model_id = None).
Proof.
  intros Hempty Hget. split; [|split].
  - rewrite get_model_by_id_run, Hempty. cbn [is_empty].
    rewrite fetch_models_run. cbv zeta. rewrite Hget. reflexivity.
  - intros Hin. pose proof (find_model_spec _get_default_models model_id) as Hs.
    destruct (find_model _get_default_models model_id) as [m|].
    + destruct Hs as (before & after & Hm & Hid & _).
      exists m. split; [reflexivity|]. split; [|exact Hid].
      rewrite Hm. apply in_or_app. right. left. reflexivity.
    + exfalso. rewrite Forall_forall in Hs.
      change default_identifiers with (map identifier _get_default_models) in Hin.
      apply in_map_iff in Hin as (m & Hid & Hm). apply (Hs m Hm Hid).
  - intros Hnot. pose proof (find_model_spec _get_default_models model_id) as Hs.
    destruct (find_model _get_default_models model_id) as [m|]; [|reflexivity].
    exfalso. destruct Hs as (before & after & Hm & Hid & _). apply Hnot.
    change default_identifiers with (map identifier _get_default_models).
    rewrite <- Hid. apply in_map. rewrite Hm.
    apply in_or_app. right. left. reflexivity.
Qed.

(** X9.  [close] closes the memoized session, if there is one, and forgets
    it, keeping the cache; a second [close] closes nothing and changes
    nothing; and the next [_get_session] builds a new session from the
    token. *)
Theorem close_then_reopen st :
  let (closed, st1) := close st in
  closed = match _session st with Some x => [x] | None => [] end
  /\ _session st1 = None
  /\ _models st1 = _models st
  /\ close st1 = ([], st1)
  /\ fst (_get_session new_session st1) = inr (new_session (session_token st)).
Proof.
  unfold close, _get_session. destruct (_session st) eqn:E; cbn.
  - repeat split.
  - rewrite E. repeat split.
Qed.

(** X11.  [get_available_models] never raises and returns a non-empty list;
    on leaving its [with] block it closes exactly the one session it built
    for the token, and the fetcher it drops holds no session. *)
Theorem get_available_models_spec token :
  exists models st,
    get_available_models json_loads order new_session token
    = (inr models, ([new_session token], st))
    /\ models <> []
    /\ _session st = None
    /\ _models st = models.
Proof.
  unfold get_available_models.
  destruct (fetch_models_returns (fresh token)) as (models & st' & Hrun & Hm & Hne).
  pose proof (fetch_models_state (fresh token)) as (_ & _ & Hs).
  cbv zeta in Hs. rewrite Hrun in *. cbn [snd] in Hs.
  unfold close. rewrite Hs. cbn [the_session fresh _session session_token].
  do 2 eexists. split; [reflexivity|]. cbn. auto.
Qed.

End ObjectFacts.

Lemma get_model_by_id_offline_witness :
  fst (get_model_by_id no_json insertion_order (fun _ => offline_site)
                       "gpt51" (fresh "token"))
  = inr (find_model _get_default_models "gpt51").
Proof.
  apply (get_model_by_id_offline no_json insertion_order (fun _ => offline_site)
           "gpt51" (fresh "token") (Exn RequestError "Failed to connect")).
  - reflexivity.
  - reflexivity.
Defined.

(** ** Letter case, providers and names *)

Lemma lower_char_idem c : Str.lower_char (Str.lower_char c) = Str.lower_char c.
Proof.
  apply Ascii.eqb_eq.
  apply (StrFacts.by_cases
           (fun c => Ascii.eqb (Str.lower_char (Str.lower_char c))
                               (Str.lower_char c))).
  vm_compute. reflexivity.
Qed.

Lemma is_digit_lower c : Re.is_digit (Str.lower_char c) = Re.is_digit c.
Proof.
  apply eqb_prop.
  apply (StrFacts.by_cases
           (fun c => Bool.eqb (Re.is_digit (Str.lower_char c)) (Re.is_digit c))).
  vm_compute. reflexivity.
Qed.

Lemma get_lower n : forall s,
  String.get n (Str.lower s) = option_map Str.lower_char (String.get n s).
Proof.
  induction n as [|n IH]; intros [|c s]; cbn; auto.
Qed.

Lemma digit_at_lower n s :
  match String.get n (Str.lower s) with
  | Some c => Re.is_digit c
  | None => false
  end
  = match String.get n s with Some c => Re.is_digit c | None => false end.
Proof.
  rewrite get_lower. destruct (String.get n s); cbn [option_map];
    [apply is_digit_lower|reflexivity].
Qed.

(** X13.  On strings of ASCII characters the validation only looks at the
    lower-case form: two such strings that differ in letter case only are
    both accepted or both rejected. *)
Theorem valid_model_id_ignores_case s t :
  isascii s = true ->
  isascii t = true ->
  Str.lower s = Str.lower t ->
  _is_valid_model_id (PyStr s) = _is_valid_model_id (PyStr t).
Proof.
  intros _ _ E. rewrite !is_valid_str.
  assert (Hlen : String.length s = String.length t).
  { rewrite <- (StrFacts.length_map_chars Str.lower_char s).
    rewrite <- (StrFacts.length_map_chars Str.lower_char t).
    fold (Str.lower s) (Str.lower t). rewrite E. reflexivity. }
  assert (Hd : Spec.gpt_digit s = Spec.gpt_digit t).
  { unfold Spec.gpt_digit, Spec.starts_ci.
    rewrite <- (digit_at_lower 3 s), <- (digit_at_lower 3 t), E. reflexivity. }
  rewrite Hlen, Hd. unfold Spec.starts_ci. rewrite E. reflexivity.
Qed.

Lemma valid_model_id_ignores_case_witness :
  _is_valid_model_id (PyStr "Claude45Sonnet")
  = _is_valid_model_id (PyStr "claude45sonnet").
Proof.
  apply (valid_model_id_ignores_case "Claude45Sonnet" "claude45sonnet");
    reflexivity.
Defined.

Lemma append_assoc (a b c : string) : ((a ++ b) ++ c = a ++ (b ++ c))%string.
Proof. induction a as [|x a IH]; cbn; [reflexivity|]. rewrite IH. reflexivity. Qed.

Lemma starts_ci_split s p :
  Spec.starts_ci s p = true -> exists rest, Str.lower s = Str.lower p ++ rest.
Proof. apply StrFacts.prefix_split. Qed.

(** X14.  Validation and provider inference do not agree on every prefix: an
    identifier of ASCII characters that passes the validation gets the
    provider [Unknown] exactly when it starts with [sonar], or starts with
    [experimental] and is longer than that word (letter case ignored). *)
Theorem valid_identifier_unknown_provider s :
  isascii s = true ->
  _is_valid_model_id (PyStr s) = inr true ->
  (_infer_provider s = "Unknown"
   <-> Spec.starts_ci s "sonar" = true
       \/ (Spec.starts_ci s "experimental" = true
           /\ Str.lower s <> "experimental")).
Proof.
  intros _ Hv. split.
  - intros Hu. rewrite is_valid_str in Hv.
    apply (f_equal (fun r : result bool =>
                      match r with inr b => b | inl _ => false end)) in Hv.
    cbv beta iota in Hv.
    apply andb_true_iff in Hv as [_ Ha].
    unfold _infer_provider, Str.startswith in Hu.
    destruct (String.eqb_spec (Str.lower s) "experimental") as [Ee|Ne];
      [rewrite orb_true_r in Hu; discriminate|].
    rewrite orb_false_r in Hu.
    assert (Himp : forall p q,
               String.prefix q (Str.lower p) = true ->
               Spec.starts_ci s p = true ->
               String.prefix q (Str.lower s) = false -> False).
    { intros p q Hq Hp Hf. destruct (starts_ci_split _ _ Hp) as [rest E].
      destruct (StrFacts.prefix_split _ _ Hq) as [r1 E1].
      rewrite E, E1, append_assoc, StrFacts.prefix_app in Hf. discriminate. }
    destruct (String.prefix "pplx" (Str.lower s)) eqn:P1; [discriminate|].
    destruct (String.prefix "gpt" (Str.lower s)) eqn:P2; [discriminate|].
    destruct (String.prefix "claude" (Str.lower s)) eqn:P3; [discriminate|].
    destruct (String.prefix "gemini" (Str.lower s)) eqn:P4; [discriminate|].
    destruct (String.prefix "grok" (Str.lower s)) eqn:P5; [discriminate|].
    destruct (String.prefix "kimi" (Str.lower s)) eqn:P6; [discriminate|].
    destruct (String.prefix "llama" (Str.lower s)) eqn:P7; [discriminate|].
    destruct (String.prefix "mistral" (Str.lower s)) eqn:P8; [discriminate|].
    destruct (String.prefix "deepseek" (Str.lower s)) eqn:P9; [discriminate|].
    apply orb_true_iff in Ha as [Ha|Ha].
    + unfold Spec.allow_list in Ha. cbn [existsb] in Ha.
      repeat (apply orb_true_iff in Ha as [Ha|Ha]);
        try discriminate;
        try (left; exact Ha);
        try (right; split; [exact Ha|exact Ne]);
        exfalso.
      * apply (Himp "pplx_" "pplx" eq_refl Ha P1).
      * apply (Himp "claude" "claude" eq_refl Ha P3).
      * apply (Himp "gemini" "gemini" eq_refl Ha P4).
      * apply (Himp "grok" "grok" eq_refl Ha P5).
      * apply (Himp "kimi" "kimi" eq_refl Ha P6).
      * apply (Himp "llama" "llama" eq_refl Ha P7).
      * apply (Himp "mistral" "mistral" eq_refl Ha P8).
      * apply (Himp "deepseek" "deepseek" eq_refl Ha P9).
    + exfalso. unfold Spec.gpt_digit in Ha. apply andb_true_iff in Ha as [Ha _].
      apply (Himp "gpt" "gpt" eq_refl Ha P2).
  - intros [H|[H Hne]]; destruct (starts_ci_split _ _ H) as [rest E];
      unfold _infer_provider, Str.startswith; rewrite E.
    + reflexivity.
    + destruct rest as [|c rest].
      * exfalso. apply Hne. rewrite E. reflexivity.
      * reflexivity.
Qed.

Lemma valid_identifier_unknown_provider_witness :
  _infer_provider "sonar_pro" = "Unknown"
  <-> Spec.starts_ci "sonar_pro" "sonar" = true
      \/ (Spec.starts_ci "sonar_pro" "experimental" = true
          /\ Str.lower "sonar_pro" <> "experimental").
Proof.
  apply (valid_identifier_unknown_provider "sonar_pro"); reflexivity.
Defined.

Lemma no_underscore_after_case c :
  Ascii.eqb c "_" = false ->
  Ascii.eqb (Str.lower_char c) "_" = false
  /\ Ascii.eqb (Str.upper_char c) "_" = false.
Proof.
  revert c.
  assert (H : forall c,
             (Ascii.eqb c "_"
              || (negb (Ascii.eqb (Str.lower_char c) "_")
                  && negb (Ascii.eqb (Str.upper_char c) "_"))) = true).
  { apply StrFacts.by_cases. vm_compute. reflexivity. }
  intros c Hc. specialize (H c). rewrite Hc in H. cbn [orb] in H.
  apply andb_true_iff in H as [H1 H2].
  apply negb_true_iff in H1, H2. auto.
Qed.

Lemma contains_char_cons c d s :
  Str.contains (String c "") (String d s)
  = Ascii.eqb c d || Str.contains (String c "") s.
Proof.
  cbn [Str.contains String.prefix].
  destruct (ascii_dec c d) as [E|N].
  - subst. rewrite Ascii.eqb_refl. destruct s; reflexivity.
  - apply Ascii.eqb_neq in N. rewrite N. reflexivity.
Qed.

Lemma title_without_underscore s : forall b,
  Str.contains "_" (Str.title_from b (Str.replace_char "_" " " s)) = false.
Proof.
  induction s as [|c s IH]; intros b; [reflexivity|].
  unfold Str.replace_char in *. cbn [Str.map_chars Str.title_from].
  rewrite contains_char_cons, IH, orb_false_r.
  assert (Hc : Ascii.eqb (if Ascii.eqb c "_" then " "%char else c) "_" = false).
  { destruct (Ascii.eqb c "_") eqn:E; [reflexivity|exact E]. }
  destruct (no_underscore_after_case _ Hc) as [Hl Hu].
  rewrite Ascii.eqb_sym. destruct b; [rewrite Ascii.eqb_sym in Hl; exact Hl|].
  rewrite Ascii.eqb_sym in Hu. exact Hu.
Qed.

(** X15.  The name inferred for an identifier of ASCII characters never
    contains an underscore; and for such an identifier that is not in the
    table of names it has exactly as many characters as the identifier. *)
Theorem infer_model_name_shape model_id :
  isascii model_id = true ->
  Str.contains "_" (_infer_model_name model_id) = false
  /\ (table_get name_mappings model_id = None ->
      String.length (_infer_model_name model_id) = String.length model_id).
Proof.
  intros _. unfold _infer_model_name.
  destruct (table_get name_mappings model_id) as [n|] eqn:E.
  - split; [|discriminate].
    apply table_get_in in E. cbn in E.
    repeat (destruct E as [<-|E]; [vm_compute; reflexivity|]). destruct E.
  - split; [apply title_without_underscore|]. intros _.
    unfold Str.title, Str.replace_char.
    rewrite StrFacts.length_title_from, StrFacts.length_map_chars. reflexivity.
Qed.

Lemma infer_model_name_shape_witness :
  Str.contains "_" (_infer_model_name "llama_guard_4") = false
  /\ String.length (_infer_model_name "llama_guard_4")
     = String.length "llama_guard_4".
Proof.
  destruct (infer_model_name_shape "llama_guard_4" eq_refl) as [Hu Hl].
  split; [exact Hu|]. apply Hl. reflexivity.
Defined.

(** X16.  The static catalog and the inference rules agree on names and
    providers: every catalog entry has a validated identifier, and inferring
    an entry from that identifier gives the catalog's name, mode and
    provider.  The catalog identifiers are pairwise distinct.  The flags need
    not agree: for [grok41nonreasoning] the inferred entry supports
    reasoning and the catalog's does not. *)
Theorem catalog_agrees_with_inference :
  NoDup (map identifier _get_default_models)
  /\ Forall (fun m =>
               validated m
               /\ name (_create_model_info (identifier m)) = name m
               /\ mode (_create_model_info (identifier m)) = mode m
               /\ provider (_create_model_info (identifier m)) = provider m)
            _get_default_models
  /\ (exists m, In m _get_default_models
                /\ identifier m = "grok41nonreasoning"
                /\ supports_reasoning m = false
                /\ supports_reasoning (_create_model_info (identifier m)) = true).
Proof.
  split; [|split].
  - change (map identifier _get_default_models) with default_identifiers.
    unfold default_identifiers.
    repeat (constructor;
            [cbn [In]; intros H;
             repeat (destruct H as [H|H]; [discriminate|]); exact H|]).
    constructor.
  - repeat constructor; vm_compute; reflexivity.
  - eexists. split; [do 11 right; left; reflexivity|]. repeat split.
Qed.

(** ** The settings endpoints, when the answer is unusable or ill-typed *)

(** X17.  An endpoint whose request raises, whose status is not 200, whose
    body does not parse, or whose body is not a mapping, contributes nothing
    and raises nothing: the list of models is left as it was. *)
Theorem settings_endpoint_skipped session endpoint models :
  (match get session (API_BASE_URL ++ endpoint) with
   | inl _ => True
   | inr response =>
       status_code response <> 200%Z
       \/ match json response with
          | inl _ => True
          | inr data => forall items, data <> PyDict items
          end
   end) ->
  settings_endpoint session endpoint models = (inr tt, models).
Proof.
  intros H. unfold settings_endpoint. cbn [catch MonadExn_M bind Monad_M lift].
  destruct (get session (API_BASE_URL ++ endpoint)) as [e|response];
    [reflexivity|].
  destruct (Z.eqb_spec (status_code response) 200) as [E|N]; [|reflexivity].
  destruct H as [H|H]; [contradiction|].
  destruct (json response) as [e|data]; [reflexivity|].
  destruct data; try reflexivity. exfalso. eapply H. reflexivity.
Qed.

Lemma settings_endpoint_skipped_witness :
  settings_endpoint offline_site "/api/auth/session" [gpt51_model]
  = (inr tt, [gpt51_model]).
Proof.
  apply (settings_endpoint_skipped offline_site "/api/auth/session" [gpt51_model]).
  exact I.
Defined.

Lemma settings_items_stop before : forall fields value after models,
  Forall Spec.string_identifier before ->
  Py.lookup "identifier" fields = Some value ->
  (forall s, value <> PyStr s) ->
  exists e,
    for_each (before ++ PyDict fields :: after)%list settings_item models
    = (inl e, (models ++ flat_map Spec.listed_models before)%list).
Proof.
  induction before as [|m before IH]; intros fields value after models Hb Hl Hv.
  - cbn [app flat_map]. rewrite app_nil_r.
    change (for_each (PyDict fields :: after) settings_item)
      with (settings_item (PyDict fields) ;; for_each after settings_item).
    cbn [bind Monad_M settings_item]. rewrite Hl.
    destruct value; try (eexists; reflexivity).
    exfalso. eapply Hv. reflexivity.
  - inversion Hb as [|x l Hm Hb']; subst.
    change (for_each ((m :: before) ++ PyDict fields :: after)%list settings_item)
      with (settings_item m ;;
            for_each (before ++ PyDict fields :: after)%list settings_item).
    cbn [bind Monad_M flat_map].
    pose proof (settings_items_collect [m] (Forall_cons _ Hm (Forall_nil _)) models)
      as H1.
    change (for_each [m] settings_item) with (settings_item m ;; ret tt) in H1.
    cbn [bind Monad_M ret flat_map] in H1. rewrite app_nil_r in H1.
    destruct (settings_item m models) as [[e|[]] l1]; [discriminate|].
    injection H1 as ->.
    destruct (IH fields value after
                 (models ++ Spec.listed_models m)%list Hb' Hl Hv) as [e ->].
    exists e. rewrite <- app_assoc. reflexivity.
Qed.

(** X18.  When the list under [models] holds a mapping whose identifier is
    not a string, the endpoint keeps the entries of the elements before it
    and nothing else: the elements after it and the two other keys of that
    response are not read, and no exception leaves the endpoint. *)
Theorem settings_endpoint_stops_at_ill_typed
        session endpoint response data before fields value after models :
  get session (API_BASE_URL ++ endpoint) = inr response ->
  status_code response = 200%Z ->
  json response = inr (PyDict data) ->
  Py.lookup "models" data = Some (PyList (before ++ PyDict fields :: after)%list) ->
  Forall Spec.string_identifier before ->
  Py.lookup "identifier" fields = Some value ->
  (forall s, value <> PyStr s) ->
  settings_endpoint session endpoint models
  = (inr tt, (models ++ flat_map Spec.listed_models before)%list).
Proof.
  intros Hget Hstatus Hjson Hlist Hb Hl Hv.
  unfold settings_endpoint. cbn [catch MonadExn_M bind Monad_M lift].
  rewrite Hget, Hstatus, Hjson. cbn [Z.eqb Pos.eqb].
  unfold settings_keys.
  change (for_each ["models"; "availableModels"; "supportedModels"]
                   (settings_key data))
    with (settings_key data "models" ;;
          for_each ["availableModels"; "supportedModels"] (settings_key data)).
  cbn [bind Monad_M]. unfold settings_key at 1. rewrite Hlist.
  destruct (settings_items_stop before fields value after models Hb Hl Hv)
    as [e ->].
  reflexivity.
Qed.

Lemma settings_endpoint_stops_at_ill_typed_witness :
  settings_endpoint (site_with_session_data (PyDict partly_ill_typed_settings))
                    "/api/auth/session" []
  = (inr tt, [_create_model_info "gpt51"]).
Proof.
  apply (settings_endpoint_stops_at_ill_typed
           (site_with_session_data (PyDict partly_ill_typed_settings))
           "/api/auth/session"
           (json_response (PyDict partly_ill_typed_settings))
           partly_ill_typed_settings
           [PyStr "gpt51"] [("identifier", PyNone)] PyNone
           [PyStr "claude45sonnet"] []).
  - reflexivity.
  - reflexivity.
  - reflexivity.
  - reflexivity.
  - repeat constructor.
  - reflexivity.
  - intros s. discriminate.
Defined.

(** ** The matcher is sound *)

Lemma length_append a b :
  String.length (a ++ b) = String.length a + String.length b.
Proof. induction a as [|c a IH]; cbn; [reflexivity|]. rewrite IH. reflexivity. Qed.

Lemma substring_prefix w : forall s,
  substring 0 (String.length (w ++ s) - String.length s) (w ++ s) = w.
Proof.
  intros s. rewrite length_append, Nat.add_sub.
  induction w as [|c w IH]; cbn.
  - destruct s; reflexivity.
  - rewrite IH. reflexivity.
Qed.

(** Whenever the matcher succeeds, it has cut from the front of the subject
    a text the pattern matches, and handed the rest to its continuation. *)
Lemma run_sound fl total r : forall s g k o,
  Re.run fl total r s g k = Some o ->
  exists w s1 g1,
    s = w ++ s1 /\ matches fl r w g g1 /\ k s1 g1 = Some o.
Proof.
  induction r as [| |items|r1 IH1 r2 IH2|r IH|greedy r IH|r IH];
    intros s g k o H.
  - cbn [Re.run] in H. destruct (String.length s =? total); [|discriminate].
    exists "", s, g. split; [reflexivity|]. split; [constructor|exact H].
  - exists "", s, g. split; [reflexivity|]. split; [constructor|exact H].
  - cbn [Re.run] in H. destruct s as [|c s]; [discriminate|].
    destruct (Re.char_in fl items c) eqn:E; [|discriminate].
    exists (String c ""), s, g. split; [reflexivity|].
    split; [constructor; exact E|exact H].
  - cbn [Re.run] in H.
    destruct (IH1 _ _ _ _ H) as (w1 & s1 & g1 & -> & M1 & H1).
    destruct (IH2 _ _ _ _ H1) as (w2 & s2 & g2 & -> & M2 & H2).
    exists (w1 ++ w2), s2, g2. split; [symmetry; apply append_assoc|].
    split; [econstructor; eassumption|exact H2].
  - cbn [Re.run] in H. unfold Re.orelse in H.
    destruct (Re.run fl total r s g k) as [o'|] eqn:E.
    + injection H as ->.
      destruct (IH _ _ _ _ E) as (w & s1 & g1 & -> & M & Hk).
      exists w, s1, g1. split; [reflexivity|].
      split; [apply matches_opt_some; exact M|exact Hk].
    + exists "", s, g. split; [reflexivity|]. split; [constructor|exact H].
  - cbn [Re.run] in H. revert H. generalize (String.length s) as n.
    intros n. revert s g. induction n as [|n IHn]; intros s g H.
    + cbn in H. unfold Re.orelse in H.
      assert (Hk : k s g = Some o).
      { destruct greedy; [exact H|]. destruct (k s g); [exact H|discriminate]. }
      exists "", s, g. split; [reflexivity|]. split; [constructor|exact Hk].
    + cbn beta iota zeta in H. unfold Re.orelse in H.
      match type of H with
      | context [Re.run fl total r s g ?kk] =>
          destruct (Re.run fl total r s g kk) as [o'|] eqn:E
      end.
      * assert (Ho : o' = o \/ k s g = Some o).
        { destruct greedy; [left; congruence|].
          destruct (k s g) as [o''|]; [right; exact H|left; congruence]. }
        destruct Ho as [->|Hk].
        -- destruct (IH _ _ _ _ E) as (w1 & s1 & g1 & Hs & M1 & Hloop).
           destruct (String.length s1 <? String.length s); [|discriminate].
           destruct (IHn _ _ Hloop) as (w2 & s2 & g2 & -> & M2 & Hk).
           exists (w1 ++ w2), s2, g2. split; [rewrite Hs; symmetry; apply append_assoc|].
           split; [econstructor; eassumption|exact Hk].
        -- exists "", s, g. split; [reflexivity|]. split; [constructor|exact Hk].
      * assert (Hk : k s g = Some o).
        { destruct greedy; [exact H|]. destruct (k s g); [exact H|discriminate]. }
        exists "", s, g. split; [reflexivity|]. split; [constructor|exact Hk].
  - cbn [Re.run] in H.
    destruct (IH _ _ _ _ H) as (w & s1 & g1 & -> & M & Hk).
    rewrite substring_prefix in Hk.
    exists w, s1, (Some w). split; [reflexivity|].
    split; [econstructor; exact M|exact Hk].
Qed.

Lemma matches_group_free fl r w g g1 :
  matches fl r w g g1 -> group_free r = true -> g1 = g.
Proof.
  induction 1; cbn [group_free]; intros Hf; try reflexivity.
  - apply andb_true_iff in Hf as [H1 H2].
    rewrite (IHmatches2 H2). apply IHmatches1, H1.
  - apply IHmatches, Hf.
  - rewrite (IHmatches2 Hf). apply IHmatches1, Hf.
  - discriminate.
Qed.

Lemma all_chars_app p a b :
  all_chars p (a ++ b) = all_chars p a && all_chars p b.
Proof.
  induction a as [|c a IH]; cbn; [reflexivity|].
  rewrite IH. apply andb_assoc.
Qed.

Lemma matches_star_set fl greedy items w g g1 :
  matches fl (Re.RStar greedy (Re.RSet items)) w g g1 ->
  all_chars (Re.char_in fl items) w = true.
Proof.
  remember (Re.RStar greedy (Re.RSet items)) as r eqn:Er.
  induction 1; try discriminate; [reflexivity|].
  injection Er as -> ->.
  rewrite all_chars_app, IHmatches2 by reflexivity.
  match goal with
  | M : matches _ (Re.RSet _) _ _ _ |- _ =>
      inversion M as [| |its c0 g0 Hc| | | | | |]; subst
  end.
  cbn. rewrite Hc. reflexivity.
Qed.

Lemma matches_plus_set fl items w g g1 :
  matches fl (Re.plus (Re.RSet items)) w g g1 ->
  w <> "" /\ all_chars (Re.char_in fl items) w = true.
Proof.
  unfold Re.plus. intros H. inversion H as [| | |r1 r2 w1 w2 ga gb gc M1 M2| | | | |];
    subst.
  inversion M1 as [| |its c0 g0 Hc| | | | | |]; subst. split; [discriminate|].
  cbn. rewrite (matches_star_set _ _ _ _ _ _ M2), Hc. reflexivity.
Qed.

Lemma group_free_cat rs : forallb group_free rs = true -> group_free (Re.cat rs) = true.
Proof.
  induction rs as [|r rs IH]; [reflexivity|].
  cbn. intros H. apply andb_true_iff in H as [H1 H2].
  rewrite H1, (IH H2). reflexivity.
Qed.

(** In a sequence of patterns of which one is a group, group 1 of a match
    is the text that group matched. *)
Lemma matches_cat_group fl pre r post : forall w g g1,
  forallb group_free pre = true ->
  forallb group_free post = true ->
  matches fl (Re.cat (pre ++ Re.RGroup r :: post)%list) w g g1 ->
  exists cap ga, matches fl r cap g ga /\ g1 = Some cap.
Proof.
  induction pre as [|a pre IH]; intros w g g1 Hpre Hpost H.
  - cbn [app Re.cat] in H.
    inversion H as [| | |r1 r2 w1 w2 g0 gm g2 M1 M2| | | | |]; subst.
    inversion M1 as [| | | | | | | |r0 w0 g0 ga Mr]; subst.
    exists w1, ga. split; [exact Mr|].
    apply (matches_group_free _ _ _ _ _ M2), group_free_cat, Hpost.
  - cbn [app Re.cat forallb] in *. apply andb_true_iff in Hpre as [Ha Hpre].
    inversion H as [| | |r1 r2 w1 w2 g0 gm g2 M1 M2| | | | |]; subst.
    rewrite (matches_group_free _ _ _ _ _ M1 Ha) in M2.
    apply (IH _ _ _ Hpre Hpost M2).
Qed.

Lemma finditer_in fl total r fuel : forall s g,
  In g (Re.finditer_from fl total fuel r s) ->
  exists s' rest, Re.match_here fl total r s' = Some (rest, g).
Proof.
  induction fuel as [|fuel IH]; intros s g H; [destruct H|].
  cbn [Re.finditer_from] in H.
  assert (Hstep : In g match s with
                       | EmptyString => []
                       | String _ s' => Re.finditer_from fl total fuel r s'
                       end ->
                  exists s' rest, Re.match_here fl total r s' = Some (rest, g)).
  { destruct s as [|c s']; [intros []|]. apply IH. }
  cbv zeta in H.
  destruct (Re.match_here fl total r s) as [[rest g0]|] eqn:E; [|apply Hstep, H].
  destruct H as [<-|H]; [exists s, rest; exact E|].
  destruct (String.length rest <? String.length s); [apply (IH _ _ H)|apply Hstep, H].
Qed.

Lemma id_class_ignorecase c :
  Re.char_in ignorecase id_class c = is_id_char c.
Proof.
  apply eqb_prop.
  apply (StrFacts.by_cases
           (fun c => Bool.eqb (Re.char_in ignorecase id_class c) (is_id_char c))).
  vm_compute. reflexivity.
Qed.

Lemma all_chars_ext p q s :
  (forall c, p c = q c) -> all_chars p s = all_chars q s.
Proof.
  intros H. induction s as [|c s IH]; cbn; [reflexivity|].
  rewrite H, IH. reflexivity.
Qed.

(** What each of the three patterns captures. *)
Lemma model_pattern_capture p total s rest g :
  In p model_patterns ->
  Re.match_here ignorecase total p s = Some (rest, g) ->
  exists cap, g = Some cap /\ cap <> "" /\ all_chars is_id_char cap = true.
Proof.
  intros Hp H. unfold Re.match_here in H.
  destruct (run_sound _ _ _ _ _ _ _ H) as (w & s1 & g1 & _ & M & Hk).
  injection Hk as _ <-.
  assert (Hg : exists cap ga,
             matches ignorecase (Re.plus (Re.RSet id_class)) cap None ga
             /\ g1 = Some cap).
  { destruct Hp as [<-|[<-|[<-|[]]]].
    - apply (matches_cat_group ignorecase
               [Re.lit dq; Re.lits "identifier"; Re.lit dq; spaces; Re.lit ":";
                spaces; Re.lit dq]
               (Re.plus (Re.RSet id_class)) [Re.lit dq] w None g1);
        [reflexivity|reflexivity|exact M].
    - apply (matches_cat_group ignorecase
               [Re.lit dq; Re.lits "model"; Re.lit dq; spaces; Re.lit ":";
                spaces; Re.lit dq]
               (Re.plus (Re.RSet id_class)) [Re.lit dq] w None g1);
        [reflexivity|reflexivity|exact M].
    - apply (matches_cat_group ignorecase
               [Re.lits "modelId"; Re.ROpt quote; spaces;
                Re.RSet [Re.CLit ":"; Re.CLit "="]; spaces; quote]
               (Re.plus (Re.RSet id_class)) [quote] w None g1);
        [reflexivity|reflexivity|exact M]. }
  destruct Hg as (cap & ga & Mc & ->).
  destruct (matches_plus_set _ _ _ _ _ Mc) as [Hne Hall].
  exists cap. split; [reflexivity|]. split; [exact Hne|].
  rewrite <- Hall. apply all_chars_ext. intros c. symmetry.
  apply id_class_ignorecase.
Qed.

Lemma scan_matches_ids ms : forall found found',
  Forall (fun g => forall cap, g = Some cap -> all_chars is_id_char cap = true) ms ->
  scan_matches ms found = inr found' ->
  Forall (fun i => all_chars is_id_char i = true) found ->
  Forall (fun i => all_chars is_id_char i = true) found'.
Proof.
  induction ms as [|g ms IH]; intros found found' Hms H Hf.
  - injection H as <-. exact Hf.
  - inversion Hms as [|x l Hg Hms']; subst.
    cbn [scan_matches bind Monad_result] in H.
    destruct (scan_match found g) as [e|found1] eqn:E; [discriminate|].
    apply (IH _ _ Hms' H). unfold scan_match in E.
    cbn [bind ret Monad_result] in E.
    destruct (_is_valid_model_id (group1 g)) as [e|[|]]; [discriminate| |];
      injection E as <-; [|exact Hf].
    destruct g as [cap|]; [|exact Hf].
    apply Forall_app. split; [exact Hf|].
    constructor; [apply Hg; reflexivity|constructor].
Qed.

Lemma scan_patterns_ids ps html : forall found found',
  (forall p, In p ps -> In p model_patterns) ->
  scan_patterns ps html found = inr found' ->
  Forall (fun i => all_chars is_id_char i = true) found ->
  Forall (fun i => all_chars is_id_char i = true) found'.
Proof.
  induction ps as [|p ps IH]; intros found found' Hps H Hf.
  - injection H as <-. exact Hf.
  - cbn [scan_patterns bind Monad_result] in H.
    destruct (scan_matches (Re.re_finditer ignorecase p html) found)
      as [e|found1] eqn:E; [discriminate|].
    apply (IH _ _ (fun q Hq => Hps q (or_intror Hq)) H).
    refine (scan_matches_ids _ _ _ _ E Hf).
    apply Forall_forall. intros g Hg cap ->.
    unfold Re.re_finditer in Hg.
    destruct (finditer_in _ _ _ _ _ _ Hg) as (s' & rest & Hm).
    destruct (model_pattern_capture p _ _ _ _ (Hps p (or_introl eq_refl)) Hm)
      as (cap' & Hc & _ & Hall).
    injection Hc as <-. exact Hall.
Qed.

(** X19.  On a page of ASCII characters, every identifier the pattern scan
    collects is a string of at least three letters, digits and underscores
    that passes the validation. *)
Theorem pattern_scan_identifiers html found :
  isascii html = true ->
  scan_patterns model_patterns html [] = inr found ->
  Forall (fun i =>
            3 <= String.length i
            /\ all_chars is_id_char i = true
            /\ _is_valid_model_id (PyStr i) = inr true)
         found.
Proof.
  intros _ H.
  pose proof (scan_patterns_ids _ _ _ _ (fun p Hp => Hp) H (Forall_nil _)) as Hc.
  pose proof (scan_patterns_valid _ _ _ _ H (Forall_nil _)) as Hv.
  unfold all_valid in Hv. rewrite Forall_forall in *.
  intros i Hi. split; [|split; [apply Hc, Hi|apply Hv, Hi]].
  apply (validated_length (_create_model_info i)), Hv, Hi.
Qed.

Lemma pattern_scan_identifiers_witness :
  Forall (fun i =>
            3 <= String.length i
            /\ all_chars is_id_char i = true
            /\ _is_valid_model_id (PyStr i) = inr true)
         ["gpt51"; "claude45sonnet"].
Proof.
  apply (pattern_scan_identifiers one_model_page); vm_compute; reflexivity.
Defined.

(** ** The embedded script *)

Lemma literal_char fl c x :
  Re.IGNORECASE fl = false -> Re.char_in fl [Re.CLit c] x = true -> x = c.
Proof.
  unfold Re.char_in. cbn [existsb Re.item_has]. intros ->.
  rewrite andb_false_l, !orb_false_r. apply Ascii.eqb_eq.
Qed.

Lemma matches_literal fl r : forall t w g g1,
  Re.IGNORECASE fl = false ->
  literal_text r = Some t ->
  matches fl r w g g1 -> w = t /\ g1 = g.
Proof.
  induction r as [| |items|r1 IH1 r2 IH2|r IH|greedy r IH|r IH];
    intros t w g g1 Hfl Ht M; try discriminate.
  - injection Ht as <-. inversion M; subst. auto.
  - destruct items as [|[c| | | |] [|]]; try discriminate.
    injection Ht as <-. inversion M as [| |its x g0 Hc| | | | | |]; subst.
    rewrite (literal_char _ _ _ Hfl Hc). auto.
  - cbn [literal_text] in Ht.
    destruct (literal_text r1) as [t1|]; [|discriminate].
    destruct (literal_text r2) as [t2|]; [|discriminate].
    injection Ht as <-.
    inversion M as [| | |ra rb w1 w2 g0 gm g2 M1 M2| | | | |]; subst.
    destruct (IH1 _ _ _ _ Hfl eq_refl M1) as [-> ->].
    destruct (IH2 _ _ _ _ Hfl eq_refl M2) as [-> ->]. auto.
Qed.

Lemma matches_tagged_group fl pre r post tp tq : forall w g g1,
  Re.IGNORECASE fl = false ->
  literal_text (Re.cat pre) = Some tp ->
  literal_text (Re.cat post) = Some tq ->
  matches fl (Re.cat (pre ++ Re.RGroup r :: post)%list) w g g1 ->
  exists cap, w = (tp ++ cap ++ tq)%string /\ g1 = Some cap.
Proof.
  revert tp. induction pre as [|a pre IH]; intros tp w g g1 Hfl Hp Hq M.
  - cbn in Hp. injection Hp as <-. cbn [app Re.cat] in M.
    inversion M as [| | |r1 r2 w1 w2 g0 gm g2 M1 M2| | | | |]; subst.
    inversion M1 as [| | | | | | | |r0 w0 g0 ga Mr]; subst.
    destruct (matches_literal _ _ _ _ _ _ Hfl Hq M2) as [-> ->].
    exists w1. auto.
  - cbn [app Re.cat literal_text] in *.
    destruct (literal_text a) as [ta|] eqn:Ea; [|discriminate].
    destruct (literal_text (Re.cat pre)) as [tr|] eqn:Er; [|discriminate].
    injection Hp as <-.
    inversion M as [| | |r1 r2 w1 w2 g0 gm g2 M1 M2| | | | |]; subst.
    destruct (matches_literal _ _ _ _ _ _ Hfl Ea M1) as [-> ->].
    destruct (IH tr _ _ _ Hfl eq_refl Hq M2) as (cap & -> & ->).
    exists cap. split; [|reflexivity]. symmetry. apply append_assoc.
Qed.

Lemma search_from_in fl total r : forall s o,
  Re.search_from fl total r s = Some o ->
  exists before s', s = (before ++ s')%string
                    /\ Re.match_here fl total r s' = Some o.
Proof.
  induction s as [|c s IH]; intros o H; cbn [Re.search_from] in H.
  - destruct (Re.match_here fl total r "") eqn:E; [|discriminate].
    exists "", "". split; [reflexivity|]. congruence.
  - destruct (Re.match_here fl total r (String c s)) eqn:E.
    + exists "", (String c s). split; [reflexivity|]. congruence.
    + destruct (IH _ H) as (before & s' & -> & Hm).
      exists (String c before), s'. split; [reflexivity|exact Hm].
Qed.

(** X20.  When the search for the embedded script succeeds, group 1 is
    set, and it is a text that stands on the page between the opening tag
    [<script id=... type=...>] and a closing [</script>]: that text, and no
    other, is what [json.loads] is given. *)
Theorem next_data_text_between_tags html g :
  Re.re_search dotall next_data_pattern html = Some g ->
  exists before txt after,
    g = Some txt
    /\ html = (before ++ next_data_open ++ txt ++ "</script>" ++ after)%string.
Proof.
  unfold Re.re_search. intros H.
  destruct (Re.search_from dotall (String.length html) next_data_pattern html)
    as [[rest g0]|] eqn:E; [|discriminate].
  cbn in H. injection H as <-.
  destruct (search_from_in _ _ _ _ _ E) as (before & s' & -> & Hm).
  unfold Re.match_here in Hm.
  destruct (run_sound _ _ _ _ _ _ _ Hm) as (w & s1 & g1 & -> & M & Hk).
  injection Hk as _ <-.
  destruct (matches_tagged_group dotall
              [Re.lits "<script id="; Re.lit dq; Re.lits "__NEXT_DATA__";
               Re.lit dq; Re.lits " type="; Re.lit dq;
               Re.lits "application/json"; Re.lit dq; Re.lits ">"]
              (Re.RStar false (Re.RSet [Re.CDot]))
              [Re.lits "</script>"]
              next_data_open "</script>" w None g1
              eq_refl eq_refl eq_refl M) as (cap & -> & ->).
  exists before, cap, s1. split; [reflexivity|].
  rewrite !append_assoc. reflexivity.
Qed.

Lemma next_data_text_between_tags_witness :
  exists before txt after,
    Some one_model_text = Some txt
    /\ one_model_page
       = (before ++ next_data_open ++ txt ++ "</script>" ++ after)%string.
Proof.
  apply (next_data_text_between_tags one_model_page (Some one_model_text)).
  vm_compute. reflexivity.
Defined.

Section Selection.

Variable json_loads : string -> result pyval.
Variable order : SetOrder.
Variable new_session : string -> Session.

(** X21.  When the page is fetched and the extraction does not raise, the
    list returned is the first that is not empty among: the models of the
    page, the models of the settings endpoints, the static catalog.  Nothing
    is written to the error stream, and the fetcher keeps its token and the
    session. *)
Theorem fetch_models_selection st response page :
  get (the_session new_session st) API_BASE_URL = inr response ->
  raise_for_status response = None ->
  _extract_models_from_html json_loads order (text response) = inr page ->
  let settings := settings_models (the_session new_session st) in
  let st' := snd (fetch_models json_loads order new_session st) in
  fst (fetch_models json_loads order new_session st)
  = inr (match page, settings with
         | _ :: _, _ => page
         | [], _ :: _ => settings
         | [], [] => _get_default_models
         end)
  /\ stderr st' = stderr st
  /\ session_token st' = session_token st
  /\ _session st' = Some (the_session new_session st).
Proof.
  intros Hget Hstatus Hx. cbv zeta.
  rewrite fetch_models_run. cbv zeta. rewrite Hget, Hstatus, Hx.
  cbn [fst snd]. split.
  - unfold chosen. destruct page; cbn [is_empty]; [|reflexivity].
    destruct (settings_models (the_session new_session st)); reflexivity.
  - unfold session_opened, the_session, set_models, set_session.
    destruct (_session st) eqn:E; cbn; rewrite ?E; auto.
Qed.

End Selection.

Lemma fetch_models_selection_witness :
  fst (fetch_models one_model_loads insertion_order
                    (fun _ => site_serving one_model_page) (fresh "token"))
  = inr [gpt51_model; _create_model_info "claude45sonnet"].
Proof.
  apply (fetch_models_selection one_model_loads insertion_order
           (fun _ => site_serving one_model_page) (fresh "token")
           (page_response one_model_page)
           [gpt51_model; _create_model_info "claude45sonnet"]).
  - reflexivity.
  - reflexivity.
  - vm_compute. reflexivity.
Defined.
